(** * MiniOpenFX: ledger, quote lifecycle and trade settlement

    A shallow embedding of the money arithmetic ([src/money.ts]), the
    balance ledger ([services/balance.service.ts]), the quote selection
    ([services/sor.service.ts]), the price lookup and its cache
    ([services/price.service.ts]), the quote lifecycle
    ([services/quote.service.ts]), the trade execution
    ([services/trade.service.ts]) and the rate limiter
    ([middleware/rate-limiter.ts]), followed by the properties of the
    specification checked against them and by further properties of the
    code.

    Conventions of the embedding:
    - an integral JavaScript [number] (a scaled amount, a price, a
      timestamp) and an SQLite INTEGER are values of [Z];
    - a non-integral [number] (the human-readable amount, the venue factors
      of the quote selection) is a finite binary64 value [mant * 2^expo];
      products and quotients are rounded to 53 significant bits, ties to
      even; infinities, NaN, negative zero and subnormal results are
      outside the model;
    - the store computes on [Z]: an amount that leaves the 64-bit range of
      an SQLite INTEGER is outside the model;
    - a service function takes the store and returns the new store with
      either its result or the exception it throws; a function that awaits
      a SELECT and writes afterwards also takes the store that served the
      SELECT, which is an earlier store of the run when other calls have
      written in between;
    - what a call reads from the outside world (the clock, the random
      identifiers, the answers of the price feed) is passed in as [Env];
      the clock is read as one value for the whole call. *)

From Stdlib Require Import ZArith Lia List Ascii String Sorted.
From stdpp Require Import gmap strings list pretty.

Local Open Scope Z_scope.

(** ** JavaScript numbers *)

Module JsNumber.

(** A finite binary64 value, [mant * 2^expo]. *)
Record number := Num { mant : Z; expo : Z }.

Definition of_Z (n : Z) : number := Num n 0.

(** [m / 2^k] rounded to the nearest integer, ties to even ([0 < k]). *)
Definition rne_shift (m k : Z) : Z :=
  let q := Z.shiftr m k in
  let r := Z.land m (Z.ones k) in
  let half := Z.shiftl 1 (k - 1) in
  if r <? half then q
  else if half <? r then q + 1
  else if Z.even q then q else q + 1.

(** Number of significant bits of [m]. *)
Definition bits (m : Z) : Z :=
  if m =? 0 then 0 else Z.log2 (Z.abs m) + 1.

(** Rounding of an exact dyadic value to binary64 precision. *)
Definition round53 (x : number) : number :=
  let k := bits (mant x) - 53 in
  if k <=? 0 then x else Num (rne_shift (mant x) k) (expo x + k).

(** [x * y] on numbers. *)
Definition mul (x y : number) : number :=
  round53 (Num (mant x * mant y) (expo x + expo y)).

(** [Math.round]: the closest integer, a tie going towards +infinity. *)
Definition Math_round (x : number) : Z :=
  if 0 <=? expo x then Z.shiftl (mant x) (expo x)
  else Z.shiftr (2 * mant x + Z.shiftl 1 (- expo x)) (- expo x + 1).

(** [x / y] for a positive divisor: the exact quotient rounded to 53
    significant bits, ties to even. The quotient of the mantissas is taken
    with two bits or more to spare, and its last bit is set when the
    division leaves a remainder, so that the rounding sees on which side of
    a midpoint the exact quotient lies. *)
Definition div (x y : number) : number :=
  let a := mant x in
  let b := mant y in
  if a =? 0 then Num 0 0
  else
    let k := 54 - Z.log2 (Z.abs a) + Z.log2 b in
    let num := a * 2 ^ Z.max k 0 in
    let den := b * 2 ^ Z.max (- k) 0 in
    let sticky := if num mod den =? 0 then 0 else 1 in
    round53 (Num (2 * (num / den) + sticky) (expo x - expo y - k - 1)).

(** [Math.floor]. *)
Definition Math_floor (x : number) : Z :=
  if 0 <=? expo x then Z.shiftl (mant x) (expo x)
  else Z.shiftr (mant x) (- expo x).

(** [Number(b)] for a BigInt [b]: the nearest binary64 value, which is
    again an integer. *)
Definition Number_of_BigInt (b : Z) : Z :=
  let x := round53 (of_Z b) in Z.shiftl (mant x) (expo x).

(** [MAX_SAFE_INTEGER + 1]; every integer of smaller magnitude is a
    binary64 value. *)
Definition two53 : Z := 9007199254740992.

End JsNumber.

(** ** [src/money.ts] *)

Module Money.
Import JsNumber.

Definition SCALE : Z := 100000000.

Definition toScaled (value : number) : Z :=
  Math_round (mul value (of_Z SCALE)).

(** [String(n)] for an integral number. *)
Definition toString (n : Z) : string := pretty n.

(** [s.padStart(width, "0")]. *)
Definition padStart0 (width : nat) (s : string) : string :=
  String.concat "" (replicate (width - String.length s)%nat "0"%string) +:+ s.

(** The division is the one of binary64; [%] is the remainder with the
    sign of the dividend, which is exact. *)
Definition fromScaled (scaled : Z) : string :=
  let integer := Math_floor (div (of_Z scaled) (of_Z SCALE)) in
  let fraction := Z.abs (Z.rem scaled SCALE) in
  toString integer +:+ "." +:+ padStart0 8 (toString fraction).

(** BigInt division truncates towards zero. *)
Definition scaledMultiply (a b : Z) : Z :=
  let result := Z.quot (a * b) SCALE in
  Number_of_BigInt result.

Inductive DivisionByZero := Division_by_zero.

Definition scaledDivide (a b : Z) : DivisionByZero + Z :=
  if b =? 0 then inl Division_by_zero
  else inr (Number_of_BigInt (Z.quot (a * SCALE) b)).

(** [parseFloat] is the runtime's; it is a parameter of the model. *)
Definition parsePrice (parseFloat : string -> number) (priceStr : string) : Z :=
  toScaled (parseFloat priceStr).

End Money.

(** ** [src/types.ts] *)

Module Types.
Import JsNumber.

Inductive Side := BUY | SELL.
Inductive TradeType := MARKET | RFQ.
Inductive QuoteStatus := OPEN | EXECUTED | EXPIRED.

(** One quote of a venue, as the quote selection compares them. *)
Record Quote := { source : string; bid : Z; ask : Z; liquidity : string }.

Record QuoteResponse := {
  qr_id : string;
  qr_baseCurrency : string;
  qr_quoteCurrency : string;
  qr_side : Side;
  qr_baseAmount : string;
  qr_quoteAmount : string;
  qr_price : string;
  qr_expiresAt : Z;
  qr_status : QuoteStatus;
  qr_createdAt : Z }.

Record TradeResponse := {
  tr_id : string;
  tr_type : TradeType;
  tr_baseCurrency : string;
  tr_quoteCurrency : string;
  tr_side : Side;
  tr_baseAmount : string;
  tr_quoteAmount : string;
  tr_price : string;
  tr_executedAt : Z;
  tr_createdAt : Z }.

Record BinanceTickerPrice := { tp_symbol : string; tp_price : string }.

Record BinanceBookTicker := {
  bt_symbol : string;
  bidPrice : string;
  bidQty : string;
  askPrice : string;
  askQty : string }.

Record SupportedPair := { symbol : string; base : string; quote : string }.

Definition SUPPORTED_PAIRS : list SupportedPair :=
  [ {| symbol := "EURUSDT"; base := "EUR"; quote := "USDT" |};
    {| symbol := "BTCUSDT"; base := "BTC"; quote := "USDT" |} ].

Definition QUOTE_TTL_MS : Z := 30000.

Record BalanceResponse := { br_currency : string; br_amount : string }.

Definition PRICE_CACHE_TTL_MS : Z := 5000.
Definition RATE_LIMIT_MAX : Z := 100.
Definition RATE_LIMIT_WINDOW_MS : Z := 60000.

(** The binary64 value of the literal [0.001]. *)
Definition SPREAD_MARKUP : number := Num 1152921504606847 (-60).

#[global] Instance Side_eq_dec : EqDecision Side.
Proof. solve_decision. Defined.
#[global] Instance QuoteStatus_eq_dec : EqDecision QuoteStatus.
Proof. solve_decision. Defined.
#[global] Instance TradeType_eq_dec : EqDecision TradeType.
Proof. solve_decision. Defined.

End Types.

(** ** [src/errors.ts] *)

Module Errors.

Inductive ErrorCode :=
| VALIDATION_ERROR
| UNAUTHORIZED
| NOT_FOUND
| INSUFFICIENT_BALANCE
| QUOTE_EXPIRED
| QUOTE_ALREADY_EXECUTED
| PAIR_NOT_SUPPORTED
| RATE_LIMITED
| PRICE_FETCH_FAILED
| INTERNAL_ERROR.

(** What a service function can throw: an [AppError] with its code, a
    constraint failure raised by the store, or a plain [Error]. *)
Inductive exn :=
| AppError (code : ErrorCode)
| SQLiteError
| JsError (msg : string).

Definition notFound : exn := AppError NOT_FOUND.
Definition insufficientBalance : exn := AppError INSUFFICIENT_BALANCE.
Definition quoteExpired : exn := AppError QUOTE_EXPIRED.
Definition quoteAlreadyExecuted : exn := AppError QUOTE_ALREADY_EXECUTED.
Definition pairNotSupported : exn := AppError PAIR_NOT_SUPPORTED.
Definition priceFetchFailed : exn := AppError PRICE_FETCH_FAILED.
Definition unauthorized : exn := AppError UNAUTHORIZED.
Definition rateLimited : exn := AppError RATE_LIMITED.

#[global] Instance ErrorCode_eq_dec : EqDecision ErrorCode.
Proof. solve_decision. Defined.

Inductive result (A : Type) :=
| Ok (a : A)
| Throw (e : exn).
Arguments Ok {A} a.
Arguments Throw {A} e.

End Errors.

(** ** [src/db/schema.ts]: the store *)

Module Db.
Import JsNumber Types Errors.

(** A row of [balances]; the rows are keyed by the unique index on
    [(account_id, currency)]. *)
Record BalanceRow := {
  b_id : string;
  b_amount : Z;
  b_updatedAt : Z }.

(** A row of [quotes]; the rows are keyed by the primary key [id]. *)
Record QuoteRow := {
  q_accountId : string;
  q_baseCurrency : string;
  q_quoteCurrency : string;
  q_side : Side;
  q_baseAmount : Z;
  q_quoteAmount : Z;
  q_price : Z;
  q_expiresAt : Z;
  q_status : QuoteStatus;
  q_createdAt : Z }.

(** A row of [trades]. *)
Record TradeRow := {
  t_id : string;
  t_accountId : string;
  t_quoteId : option string;
  t_type : TradeType;
  t_baseCurrency : string;
  t_quoteCurrency : string;
  t_side : Side;
  t_baseAmount : Z;
  t_quoteAmount : Z;
  t_price : Z;
  t_executedAt : Z;
  t_createdAt : Z }.

Record Store := {
  accounts : gset string;
  balances : gmap (string * string) BalanceRow;
  quotes : gmap string QuoteRow;
  trades : list TradeRow }.

Definition set_balances (f : gmap (string * string) BalanceRow -> gmap (string * string) BalanceRow)
    (st : Store) : Store :=
  {| accounts := accounts st; balances := f (balances st);
     quotes := quotes st; trades := trades st |}.

Definition set_quotes (f : gmap string QuoteRow -> gmap string QuoteRow)
    (st : Store) : Store :=
  {| accounts := accounts st; balances := balances st;
     quotes := f (quotes st); trades := trades st |}.

Definition set_trades (f : list TradeRow -> list TradeRow) (st : Store) : Store :=
  {| accounts := accounts st; balances := balances st;
     quotes := quotes st; trades := f (trades st) |}.

Definition with_status (s : QuoteStatus) (q : QuoteRow) : QuoteRow :=
  {| q_accountId := q_accountId q; q_baseCurrency := q_baseCurrency q;
     q_quoteCurrency := q_quoteCurrency q; q_side := q_side q;
     q_baseAmount := q_baseAmount q; q_quoteAmount := q_quoteAmount q;
     q_price := q_price q; q_expiresAt := q_expiresAt q;
     q_status := s; q_createdAt := q_createdAt q |}.

(** What one call reads from outside the store. *)
Record Env := {
  now : Z;                      (* Date.now() *)
  randomUUID : string;          (* crypto.randomUUID() of the service *)
  balanceUUID : string;         (* crypto.randomUUID() inside credit *)
  parseFloat : string -> number;
  fetchBookTicker : string -> option BinanceBookTicker;
  fetchTickerPrice : string -> option BinanceTickerPrice }.

(** A computation on the store that returns or throws. *)
Definition M (A : Type) : Type := Store -> Store * result A.

Definition ret {A} (a : A) : M A := fun st => (st, Ok a).
Definition throw {A} (e : exn) : M A := fun st => (st, Throw e).
Definition bind {A B} (m : M A) (k : A -> M B) : M B :=
  fun st =>
    match m st with
    | (st', Ok a) => k a st'
    | (st', Throw e) => (st', Throw e)
    end.

(** [sqlite.transaction(body)]: a throw inside [body] rolls the store
    back to what it was when the transaction began. *)
Definition transaction {A} (body : M A) : M A :=
  fun st =>
    match body st with
    | (st', Ok a) => (st', Ok a)
    | (_, Throw e) => (st, Throw e)
    end.

(** UPDATE quotes SET status = s WHERE id = quoteId. *)
Definition update_quote_status (quoteId : string) (s : QuoteStatus) : M unit :=
  fun st => (set_quotes (alter (with_status s) quoteId) st, Ok tt).

(** INSERT INTO quotes: the primary key and the reference to [accounts]
    are checked by the store. *)
Definition insert_quote (id : string) (row : QuoteRow) : M unit :=
  fun st =>
    match quotes st !! id with
    | Some _ => (st, Throw SQLiteError)
    | None =>
        if bool_decide (q_accountId row ∈ accounts st)
        then (set_quotes (insert id row) st, Ok tt)
        else (st, Throw SQLiteError)
    end.

(** INSERT INTO trades, with the same two checks. *)
Definition insert_trade (row : TradeRow) : M unit :=
  fun st =>
    if existsb (fun t => String.eqb (t_id t) (t_id row)) (trades st)
    then (st, Throw SQLiteError)
    else if bool_decide (t_accountId row ∈ accounts st)
    then (set_trades (fun ts => ts ++ [row]) st, Ok tt)
    else (st, Throw SQLiteError).

End Db.

#[global] Instance M_ret : MRet Db.M := @Db.ret.
#[global] Instance M_bind : MBind Db.M := fun A B k m => Db.bind m k.

(** ** [services/balance.service.ts] *)

Module BalanceService.
Import Money Types Errors Db.

(** SELECT * FROM balances WHERE account_id = accountId, each row
    rendered. SQL leaves the order of the rows open; the list comes in the
    order of the table. *)
Definition getBalances (accountId : string) (st : Store) : list BalanceResponse :=
  (fun kv => {| br_currency := snd (fst kv);
                br_amount := fromScaled (b_amount (snd kv)) |})
  <$> filter (fun kv => fst (fst kv) = accountId) (map_to_list (balances st)).

Definition getBalance (accountId currency : string) (st : Store) : Z :=
  match balances st !! (accountId, currency) with
  | Some row => b_amount row
  | None => 0
  end.

(** The guarded UPDATE of [debit]: the new table and the number of rows
    changed. *)
Definition debit_update (now : Z) (accountId currency : string) (amount : Z)
    (tbl : gmap (string * string) BalanceRow)
    : gmap (string * string) BalanceRow * Z :=
  match tbl !! (accountId, currency) with
  | Some row =>
      if amount <=? b_amount row
      then (<[(accountId, currency) :=
               {| b_id := b_id row; b_amount := b_amount row - amount;
                  b_updatedAt := now |}]> tbl, 1)
      else (tbl, 0)
  | None => (tbl, 0)
  end.

Definition debit (env : Env) (accountId currency : string) (amount : Z) : M unit :=
  fun st =>
    let (tbl, changes) := debit_update (now env) accountId currency amount (balances st) in
    if changes =? 0 then (st, Throw insufficientBalance)
    else (set_balances (fun _ => tbl) st, Ok tt).

(** The upsert of [credit]. A fresh row needs an unused primary key and
    an existing account. *)
Definition credit (env : Env) (accountId currency : string) (amount : Z) : M unit :=
  fun st =>
    match balances st !! (accountId, currency) with
    | Some row =>
        (set_balances
           (insert (accountId, currency)
              {| b_id := b_id row; b_amount := b_amount row + amount;
                 b_updatedAt := now env |}) st, Ok tt)
    | None =>
        if existsb (fun kv => String.eqb (b_id (snd kv)) (balanceUUID env))
             (map_to_list (balances st))
        then (st, Throw SQLiteError)
        else if bool_decide (accountId ∈ accounts st)
        then (set_balances
                (insert (accountId, currency)
                   {| b_id := balanceUUID env; b_amount := amount;
                      b_updatedAt := now env |}) st, Ok tt)
        else (st, Throw SQLiteError)
    end.

End BalanceService.

(** ** [services/sor.service.ts] *)

Module Sor.
Import JsNumber Types Errors.

(** The binary64 values of the literals [0.9999], [1.0001], [0.9998] and
    [1.0002]. *)
Definition c0_9999 : number := Num 4503149267407759 (-52).
Definition c1_0001 : number := Num 4504049987333233 (-52).
Definition c0_9998 : number := Num 2251349453722511 (-51).
Definition c1_0002 : number := Num 2252250173647985 (-51).

Definition fetchBinance (binanceBid binanceAsk : Z) : Quote :=
  {| source := "Binance"; bid := binanceBid; ask := binanceAsk;
     liquidity := "tier1" |}.

Definition fetchMassiveFX (binanceBid binanceAsk : Z) : Quote :=
  {| source := "MassiveFX";
     bid := Math_round (mul (of_Z binanceBid) c0_9999);
     ask := Math_round (mul (of_Z binanceAsk) c1_0001);
     liquidity := "tier2" |}.

Definition fetchCoinGecko (binanceBid binanceAsk : Z) : Quote :=
  {| source := "CoinGecko";
     bid := Math_round (mul (of_Z binanceBid) c0_9998);
     ask := Math_round (mul (of_Z binanceAsk) c1_0002);
     liquidity := "tier3" |}.

(** [Array.prototype.sort] with a comparator: a stable sort. *)
Fixpoint insert_by {A} (cmp : A -> A -> Z) (x : A) (l : list A) : list A :=
  match l with
  | [] => [x]
  | y :: r => if cmp x y <? 0 then x :: y :: r else y :: insert_by cmp x r
  end.

Definition sort_by {A} (cmp : A -> A -> Z) (l : list A) : list A :=
  fold_left (fun acc x => insert_by cmp x acc) l [].

Record BestQuote := {
  bq_price : Z;
  bq_bidPrice : Z;
  bq_askPrice : Z;
  bq_source : string;
  bq_allQuotes : list Quote }.

(** The three venue promises are always fulfilled, so [quotes] holds the
    three of them in order. *)
Definition getBestQuote (binanceBid binanceAsk : Z) (side : Side) : result BestQuote :=
  let quotes :=
    [ fetchBinance binanceBid binanceAsk;
      fetchMassiveFX binanceBid binanceAsk;
      fetchCoinGecko binanceBid binanceAsk ] in
  if (length quotes =? 0)%nat then Throw (JsError "All pricing sources failed")
  else
    let sorted :=
      sort_by (fun a b => match side with
                          | BUY => ask a - ask b
                          | SELL => bid b - bid a
                          end) quotes in
    match sorted with
    | best :: _ =>
        Ok {| bq_price := match side with BUY => ask best | SELL => bid best end;
              bq_bidPrice := bid best;
              bq_askPrice := ask best;
              bq_source := source best;
              bq_allQuotes := sorted |}
    | [] => Throw (JsError "undefined")
    end.

End Sor.

(** ** [services/price.service.ts] *)

Module PriceService.
Import JsNumber Money Types Errors Db.

#[global] Instance result_ret : MRet result := @Ok.
#[global] Instance result_bind : MBind result :=
  fun A B k m => match m with Ok a => k a | Throw e => Throw e end.

(** [toUpperCase] on the ASCII letters. *)
Definition upper_ascii (c : ascii) : ascii :=
  let n := Ascii.N_of_ascii c in
  if ((97 <=? n) && (n <=? 122))%N then Ascii.ascii_of_N (n - 32) else c.

Fixpoint toUpperCase (s : string) : string :=
  match s with
  | EmptyString => EmptyString
  | String c r => String (upper_ascii c) (toUpperCase r)
  end.

(** [.replace(/[_\/\-]/g, "")]. *)
Fixpoint strip_separators (s : string) : string :=
  match s with
  | EmptyString => EmptyString
  | String c r =>
      if (Ascii.eqb c "_" || Ascii.eqb c "/" || Ascii.eqb c "-")%char
      then strip_separators r
      else String c (strip_separators r)
  end.

(** The strings of ASCII characters: on them [toUpperCase] above is the
    one of JavaScript. *)
Fixpoint ascii_only (s : string) : bool :=
  match s with
  | EmptyString => true
  | String c r => (Ascii.N_of_ascii c <? 128)%N && ascii_only r
  end.

Definition findPair (pairStr : string) : option SupportedPair :=
  let normalized := strip_separators (toUpperCase pairStr) in
  List.find
    (fun p =>
       String.eqb (symbol p) normalized
       || String.eqb (base p +:+ quote p) normalized
       || String.eqb (quote p +:+ base p) normalized)
    SUPPORTED_PAIRS.

(** The cache and the HTTP call behind [fetchBookTicker] and
    [fetchTickerPrice] are the environment's: [None] is a response that
    is not ok. *)
Definition fetched {A} (r : option A) : result A :=
  match r with
  | Some data => Ok data
  | None => Throw priceFetchFailed
  end.

Record ExecutionPrice := { ep_price : Z; ep_bidPrice : Z; ep_askPrice : Z }.

Definition getExecutionPrice (env : Env) (baseCurrency quoteCurrency : string)
    (side : Side) : result ExecutionPrice :=
  let pairStr := baseCurrency +:+ quoteCurrency in
  match findPair pairStr with
  | None => Throw pairNotSupported
  | Some pair0 =>
      bookTicker ← fetched (fetchBookTicker env (symbol pair0));
      let binanceBid := parsePrice (parseFloat env) (bidPrice bookTicker) in
      let binanceAsk := parsePrice (parseFloat env) (askPrice bookTicker) in
      best ← Sor.getBestQuote binanceBid binanceAsk side;
      mret {| ep_price := Sor.bq_price best;
              ep_bidPrice := Sor.bq_bidPrice best;
              ep_askPrice := Sor.bq_askPrice best |}
  end.

Definition getMarketPrice (env : Env) (baseCurrency quoteCurrency : string)
    : result Z :=
  let pairStr := baseCurrency +:+ quoteCurrency in
  match findPair pairStr with
  | None => Throw pairNotSupported
  | Some pair0 =>
      ticker ← fetched (fetchTickerPrice env (symbol pair0));
      mret (parsePrice (parseFloat env) (tp_price ticker))
  end.

End PriceService.

(** ** [services/trade.service.ts] *)

Module TradeService.
Import JsNumber Money Types Errors Db PriceService.

Definition lift {A} (r : result A) : M A := fun st => (st, r).

(** [if (quoteId)]: [null] and the empty string are falsy. *)
Definition truthy (quoteId : option string) : option string :=
  match quoteId with
  | Some s => if String.eqb s "" then None else Some s
  | None => None
  end.

(** The four constants at the head of the transaction body. *)
Definition debitCurrency (side : Side) (baseCurrency quoteCurrency : string) : string :=
  match side with BUY => quoteCurrency | SELL => baseCurrency end.
Definition debitAmount (side : Side) (baseAmount quoteAmount : Z) : Z :=
  match side with BUY => quoteAmount | SELL => baseAmount end.
Definition creditCurrency (side : Side) (baseCurrency quoteCurrency : string) : string :=
  match side with BUY => baseCurrency | SELL => quoteCurrency end.
Definition creditAmount (side : Side) (baseAmount quoteAmount : Z) : Z :=
  match side with BUY => baseAmount | SELL => quoteAmount end.

(** The body passed to [sqlite.transaction]. *)
Definition executeTradeTx_body (env : Env)
    (accountId baseCurrency quoteCurrency : string) (side : Side)
    (baseAmount quoteAmount price : Z) (type : TradeType)
    (quoteId : option string) (tradeId : string) (now : Z) : M unit :=
  BalanceService.debit env accountId
    (debitCurrency side baseCurrency quoteCurrency)
    (debitAmount side baseAmount quoteAmount);;
  BalanceService.credit env accountId
    (creditCurrency side baseCurrency quoteCurrency)
    (creditAmount side baseAmount quoteAmount);;
  match truthy quoteId with
  | Some id => update_quote_status id EXECUTED
  | None => mret tt
  end;;
  insert_trade
    {| t_id := tradeId; t_accountId := accountId; t_quoteId := quoteId;
       t_type := type; t_baseCurrency := baseCurrency;
       t_quoteCurrency := quoteCurrency; t_side := side;
       t_baseAmount := baseAmount; t_quoteAmount := quoteAmount;
       t_price := price; t_executedAt := now; t_createdAt := now |}.

Definition executeTradeTx (env : Env)
    (accountId baseCurrency quoteCurrency : string) (side : Side)
    (baseAmount quoteAmount price : Z) (type : TradeType)
    (quoteId : option string) (tradeId : string) (now : Z) : M unit :=
  transaction
    (executeTradeTx_body env accountId baseCurrency quoteCurrency side
       baseAmount quoteAmount price type quoteId tradeId now).

Definition executeTrade (env : Env)
    (accountId baseCurrency quoteCurrency : string) (side : Side)
    (baseAmount price : Z) (type : TradeType) (quoteId : option string)
    : M TradeResponse :=
  let quoteAmount := scaledMultiply baseAmount price in
  let now := now env in
  let tradeId := randomUUID env in
  executeTradeTx env accountId baseCurrency quoteCurrency side
    baseAmount quoteAmount price type quoteId tradeId now;;
  mret {| tr_id := tradeId; tr_type := type;
          tr_baseCurrency := baseCurrency; tr_quoteCurrency := quoteCurrency;
          tr_side := side;
          tr_baseAmount := fromScaled baseAmount;
          tr_quoteAmount := fromScaled quoteAmount;
          tr_price := fromScaled price;
          tr_executedAt := now; tr_createdAt := now |}.

(** [await db.select().from(quotes).where(eq(quotes.id, quoteId))]. *)
Definition selectQuote (quoteId : string) (st : Store) : option QuoteRow :=
  quotes st !! quoteId.

(** What [executeRfqTrade] does once the awaited SELECT has delivered
    [quoteRow]; nothing in it awaits again. *)
Definition executeRfqTrade_resume (env : Env) (accountId quoteId : string)
    (quoteRow : option QuoteRow) : M TradeResponse :=
  match quoteRow with
  | None => throw notFound
  | Some quoteRow =>
      if negb (String.eqb (q_accountId quoteRow) accountId) then throw notFound
      else if bool_decide (q_status quoteRow = EXECUTED) then throw quoteAlreadyExecuted
      else if bool_decide (q_status quoteRow = EXPIRED) || (q_expiresAt quoteRow <? now env)
      then
        (if negb (bool_decide (q_status quoteRow = EXPIRED))
         then update_quote_status quoteId EXPIRED
         else mret tt);;
        throw quoteExpired
      else
        executeTrade env accountId (q_baseCurrency quoteRow)
          (q_quoteCurrency quoteRow) (q_side quoteRow)
          (q_baseAmount quoteRow) (q_price quoteRow) RFQ (Some quoteId)
  end.

(** [executeRfqTrade]. The awaited SELECT is served on the store [seen];
    the call resumes on the store it is applied to, which is [seen] itself
    when no other call has written in between. *)
Definition executeRfqTrade (env : Env) (accountId quoteId : string)
    (seen : Store) : M TradeResponse :=
  executeRfqTrade_resume env accountId quoteId (selectQuote quoteId seen).

Definition pair_supported (baseCurrency quoteCurrency : string) : bool :=
  existsb
    (fun p =>
       (String.eqb (base p) baseCurrency && String.eqb (quote p) quoteCurrency)
       || (String.eqb (quote p) baseCurrency && String.eqb (base p) quoteCurrency))
    SUPPORTED_PAIRS.

Definition executeMarketTrade (env : Env)
    (accountId baseCurrency quoteCurrency : string) (side : Side)
    (amount : number) : M TradeResponse :=
  let found := pair_supported baseCurrency quoteCurrency in
  if negb found then throw pairNotSupported
  else
    price ← lift (getMarketPrice env baseCurrency quoteCurrency);
    let baseAmount := toScaled amount in
    executeTrade env accountId baseCurrency quoteCurrency side
      baseAmount price MARKET None.

(** The rendering of a trade row, shared by [getTradeHistory] and
    [getTrade]. *)
Definition trade_response (row : TradeRow) : TradeResponse :=
  {| tr_id := t_id row; tr_type := t_type row;
     tr_baseCurrency := t_baseCurrency row;
     tr_quoteCurrency := t_quoteCurrency row;
     tr_side := t_side row;
     tr_baseAmount := fromScaled (t_baseAmount row);
     tr_quoteAmount := fromScaled (t_quoteAmount row);
     tr_price := fromScaled (t_price row);
     tr_executedAt := t_executedAt row; tr_createdAt := t_createdAt row |}.

(** SELECT * FROM trades WHERE account_id = accountId ORDER BY executed_at
    DESC. SQL leaves the order of rows with equal [executed_at] open; here
    they keep the order of the table. *)
Definition getTradeHistory (accountId : string) (st : Store) : list TradeResponse :=
  let rows :=
    Sor.sort_by (fun a b => t_executedAt b - t_executedAt a)
      (filter (fun t => t_accountId t = accountId) (trades st)) in
  trade_response <$> rows.

(** SELECT * FROM trades WHERE id = tradeId: [id] is the primary key, so
    the first match is the only one. *)
Definition getTrade (accountId tradeId : string) (st : Store) : result TradeResponse :=
  match List.find (fun t => String.eqb (t_id t) tradeId) (trades st) with
  | None => Throw notFound
  | Some row =>
      if negb (String.eqb (t_accountId row) accountId) then Throw notFound
      else Ok (trade_response row)
  end.

End TradeService.

(** ** [services/quote.service.ts] *)

Module QuoteService.
Import JsNumber Money Types Errors Db PriceService.

Definition validatePair (baseCurrency quoteCurrency : string) : M unit :=
  let found := TradeService.pair_supported baseCurrency quoteCurrency in
  if negb found then throw pairNotSupported else mret tt.

Definition createQuote (env : Env)
    (accountId baseCurrency quoteCurrency : string) (side : Side)
    (amount : number) : M QuoteResponse :=
  validatePair baseCurrency quoteCurrency;;
  ep ← TradeService.lift (getExecutionPrice env baseCurrency quoteCurrency side);
  let price := ep_price ep in
  let now := now env in
  let baseAmount := toScaled amount in
  let quoteAmount := scaledMultiply baseAmount price in
  let id := randomUUID env in
  insert_quote id
    {| q_accountId := accountId; q_baseCurrency := baseCurrency;
       q_quoteCurrency := quoteCurrency; q_side := side;
       q_baseAmount := baseAmount; q_quoteAmount := quoteAmount;
       q_price := price; q_expiresAt := now + QUOTE_TTL_MS;
       q_status := OPEN; q_createdAt := now |};;
  mret {| qr_id := id; qr_baseCurrency := baseCurrency;
          qr_quoteCurrency := quoteCurrency; qr_side := side;
          qr_baseAmount := fromScaled baseAmount;
          qr_quoteAmount := fromScaled quoteAmount;
          qr_price := fromScaled price;
          qr_expiresAt := now + QUOTE_TTL_MS;
          qr_status := OPEN; qr_createdAt := now |}.

(** [getQuote]. The awaited SELECT is served on the store [seen]; the
    clock is read when the call resumes, and the awaited UPDATE, which has
    no guard on the status, is executed on the store the call is applied
    to. *)
Definition getQuote (env : Env) (accountId quoteId : string) (seen : Store)
    : M QuoteResponse :=
  fun st =>
    match quotes seen !! quoteId with
    | None => (st, Throw notFound)
    | Some row =>
        if negb (String.eqb (q_accountId row) accountId) then (st, Throw notFound)
        else
          let expire := bool_decide (q_status row = OPEN) && (q_expiresAt row <? now env) in
          let st' := if expire then fst (update_quote_status quoteId EXPIRED st) else st in
          let status := if expire then EXPIRED else q_status row in
          (st', Ok {| qr_id := quoteId;
                      qr_baseCurrency := q_baseCurrency row;
                      qr_quoteCurrency := q_quoteCurrency row;
                      qr_side := q_side row;
                      qr_baseAmount := fromScaled (q_baseAmount row);
                      qr_quoteAmount := fromScaled (q_quoteAmount row);
                      qr_price := fromScaled (q_price row);
                      qr_expiresAt := q_expiresAt row;
                      qr_status := status;
                      qr_createdAt := q_createdAt row |})
    end.

Definition markQuoteExecuted (quoteId : string) : M unit :=
  update_quote_status quoteId EXECUTED.

End QuoteService.

(** ** [services/price.service.ts]: the cache in front of the feed *)

Module PriceCache.
Section Cache.
Context {K : Type} `{Countable K} {V : Type}.

Record CacheEntry := { value : V; expiresAt : Z }.

(** The [store] of one cache, a [Map]. *)
Definition t : Type := gmap K CacheEntry.

(** [get], with the clock it reads: the store it leaves and the value or
    [null]. *)
Definition get (now : Z) (key : K) (store : t) : t * option V :=
  match store !! key with
  | None => (store, None)
  | Some entry =>
      if expiresAt entry <? now then (delete key store, None)
      else (store, Some (value entry))
  end.

Definition set (now : Z) (key : K) (v : V) (ttl : Z) (store : t) : t :=
  <[key := {| value := v; expiresAt := now + ttl |}]> store.

End Cache.
Arguments CacheEntry : clear implicits.
Arguments t K {_ _} V.
End PriceCache.

Module Binance.
Import Types Errors.

(** What the HTTP call to Binance answers: a response that is ok, with
    its JSON body, or one that is not, with its status. A call that does
    not answer at all is outside the model. *)
Inductive Response (A : Type) :=
| Http_ok (data : A)
| Http_error (status : Z).
Arguments Http_ok {A} data.
Arguments Http_error {A} status.

(** [fetchBookTicker] over its cache. [now] is the clock when the cache is
    looked up, [now'] the clock when the answer is stored. The function
    awaits the HTTP call between the two, and [others] is what the calls
    served in the meantime do to the cache. A cached ticker is an object and
    so truthy. *)
Definition fetchBookTicker (http : string -> Response BinanceBookTicker)
    (now now' : Z) (symbol : string)
    (others : PriceCache.t string BinanceBookTicker
              -> PriceCache.t string BinanceBookTicker)
    (bookTickerCache : PriceCache.t string BinanceBookTicker)
    : PriceCache.t string BinanceBookTicker * result BinanceBookTicker :=
  match PriceCache.get now symbol bookTickerCache with
  | (cache, Some cached) => (cache, Ok cached)
  | (cache, None) =>
      match http symbol with
      | Http_error _ => (others cache, Throw priceFetchFailed)
      | Http_ok data =>
          (PriceCache.set now' symbol data PRICE_CACHE_TTL_MS (others cache),
           Ok data)
      end
  end.

Definition fetchTickerPrice (http : string -> Response BinanceTickerPrice)
    (now now' : Z) (symbol : string)
    (others : PriceCache.t string BinanceTickerPrice
              -> PriceCache.t string BinanceTickerPrice)
    (priceCache : PriceCache.t string BinanceTickerPrice)
    : PriceCache.t string BinanceTickerPrice * result BinanceTickerPrice :=
  match PriceCache.get now symbol priceCache with
  | (cache, Some cached) => (cache, Ok cached)
  | (cache, None) =>
      match http symbol with
      | Http_error _ => (others cache, Throw priceFetchFailed)
      | Http_ok data =>
          (PriceCache.set now' symbol data PRICE_CACHE_TTL_MS (others cache),
           Ok data)
      end
  end.

End Binance.

(** ** [middleware/rate-limiter.ts] *)

Module RateLimiter.
Import Types Errors.

Record t := {
  maxRequests : Z;
  windowMs : Z;
  windows : gmap string (list Z) }.

Definition new (maxRequests windowMs : Z) : t :=
  {| maxRequests := maxRequests; windowMs := windowMs; windows := ∅ |}.

Definition set_windows (f : gmap string (list Z) -> gmap string (list Z))
    (rl : t) : t :=
  {| maxRequests := maxRequests rl; windowMs := windowMs rl;
     windows := f (windows rl) |}.

(** The loop that shifts expired timestamps off the front. *)
Fixpoint evict (cutoff : Z) (timestamps : list Z) : list Z :=
  match timestamps with
  | t0 :: rest => if t0 <? cutoff then evict cutoff rest else timestamps
  | [] => []
  end.

(** [check], with the clock it reads. The array of the account is
    changed in place, so the eviction stays when the call throws. *)
Definition check (now : Z) (accountId : string) (rl : t) : t * result bool :=
  let cutoff := now - windowMs rl in
  let timestamps := default [] (windows rl !! accountId) in
  let timestamps := evict cutoff timestamps in
  if maxRequests rl <=? Z.of_nat (length timestamps)
  then (set_windows (insert accountId timestamps) rl, Throw rateLimited)
  else (set_windows (insert accountId (timestamps ++ [now])) rl, Ok true).

Definition reset (accountId : string) (rl : t) : t :=
  set_windows (delete accountId) rl.

(** The limiter of the server. *)
Definition rateLimiter : t := new RATE_LIMIT_MAX RATE_LIMIT_WINDOW_MS.

(** A run of requests, each an account and the clock at its [check], in
    the order of arrival: the requests that [check] lets pass. *)
Fixpoint admitted (requests : list (string * Z)) (rl : t) : list (string * Z) :=
  match requests with
  | [] => []
  | (accountId, now) :: rest =>
      match check now accountId rl with
      | (rl', Ok _) => (accountId, now) :: admitted rest rl'
      | (rl', Throw _) => admitted rest rl'
      end
  end.

End RateLimiter.

(** ** The public operations and the runs of the service

    SQLite executes one statement or one transaction at a time, so a run
    of the service is a sequence of stores. [createQuote] and
    [executeMarketTrade] touch the store once, with their INSERT and their
    transaction. [getQuote] and [executeRfqTrade] touch it twice: they
    await a SELECT and write after it, and the writes of other calls can
    come in between. *)

Module System.
Import JsNumber Money Types Errors Db.

(** One call of a public operation, with what it reads from outside. *)
Inductive Op :=
| CreateQuote (env : Env) (accountId baseCurrency quoteCurrency : string)
    (side : Side) (amount : number)
| GetQuote (env : Env) (accountId quoteId : string)
| ExecuteRfqTrade (env : Env) (accountId quoteId : string)
| ExecuteMarketTrade (env : Env) (accountId baseCurrency quoteCurrency : string)
    (side : Side) (amount : number).

(** The store a call leaves behind, whether it returned or threw, when
    its SELECT was served on [seen] and its write finds [st]. *)
Definition run_op (op : Op) (seen st : Store) : Store :=
  match op with
  | CreateQuote env a b q s n => fst (QuoteService.createQuote env a b q s n st)
  | GetQuote env a id => fst (QuoteService.getQuote env a id seen st)
  | ExecuteRfqTrade env a id => fst (TradeService.executeRfqTrade env a id seen st)
  | ExecuteMarketTrade env a b q s n =>
      fst (TradeService.executeMarketTrade env a b q s n st)
  end.

(** Calls served one after another: each finds the store its SELECT
    saw. *)
Definition run_ops (ops : list Op) (st : Store) : Store :=
  fold_left (fun s op => run_op op s s) ops st.

(** The stores a run of the service has gone through, the latest first.
    The service starts without quotes; the SELECT of the call that writes
    next was served on one of the stores of the run so far. *)
Inductive history : list Store -> Prop :=
| history_init st : quotes st = ∅ -> history [st]
| history_step st hist op seen :
    history (st :: hist) -> seen ∈ st :: hist ->
    history (run_op op seen st :: st :: hist).

Definition reachable (st : Store) : Prop := exists hist, history (st :: hist).





(** The status changes the quote lifecycle allows. *)
Definition status_step (s s' : QuoteStatus) : Prop :=
  s' = s \/ (s = OPEN /\ (s' = EXECUTED \/ s' = EXPIRED)).

(** A quote row as [createQuote] writes it: the quote amount is the
    product of the base amount and the price. *)
Definition quote_frozen (q : QuoteRow) : Prop :=
  q_quoteAmount q = scaledMultiply (q_baseAmount q) (q_price q).

(** How one call served alone can change the [quotes] table: not at all,
    by a new OPEN row under an unused id, or by moving one OPEN row to
    EXPIRED or to EXECUTED. *)
Inductive quotes_step (qs : gmap string QuoteRow) : gmap string QuoteRow -> Prop :=
| quotes_same : quotes_step qs qs
| quotes_created id q :
    qs !! id = None -> quote_frozen q -> q_status q = OPEN ->
    quotes_step qs (<[id := q]> qs)
| quotes_closed id q s :
    qs !! id = Some q -> q_status q = OPEN -> s = EXECUTED \/ s = EXPIRED ->
    quotes_step qs (alter (with_status s) id qs).

(** How one call can change the [quotes] table in any run: as above,
    except that the row it marks EXPIRED or EXECUTED need not be OPEN any
    more. *)
Inductive quotes_write (qs : gmap string QuoteRow) : gmap string QuoteRow -> Prop :=
| quotes_kept : quotes_write qs qs
| quotes_inserted id q :
    qs !! id = None -> quote_frozen q -> q_status q = OPEN ->
    quotes_write qs (<[id := q]> qs)
| quotes_marked id s :
    s = EXECUTED \/ s = EXPIRED ->
    quotes_write qs (alter (with_status s) id qs).

End System.

(** ** Calls of [executeRfqTrade] in flight together

    [executeRfqTrade] awaits once, on the SELECT of the quote row, and
    runs to its end after that without awaiting again ([executeTrade] is
    declared async but contains no await, and the transaction is
    synchronous). A call in flight is therefore in one of three states, and
    the event loop advances one call at a time. Calls issued in the same
    turn are served in turn: every SELECT first, then every resumption. *)

Module Concurrent.
Import Types Errors Db.

Inductive call :=
| Issued
| Selected (quoteRow : option QuoteRow)
| Settled (r : result TradeResponse).

Definition advance (env : Env) (accountId quoteId : string) (c : call)
    (st : Store) : Store * call :=
  match c with
  | Issued => (st, Selected (TradeService.selectQuote quoteId st))
  | Selected quoteRow =>
      let (st', r) :=
        TradeService.executeRfqTrade_resume env accountId quoteId quoteRow st in
      (st', Settled r)
  | Settled r => (st, Settled r)
  end.

(** [schedule] lists, in order, which call the event loop advances. *)
Fixpoint run (accountId quoteId : string) (schedule : list nat)
    (calls : list (Env * call)) (st : Store) : Store * list (Env * call) :=
  match schedule with
  | [] => (st, calls)
  | i :: rest =>
      match calls !! i with
      | Some (env, c) =>
          let (st', c') := advance env accountId quoteId c st in
          run accountId quoteId rest (<[i := (env, c')]> calls) st'
      | None => run accountId quoteId rest calls st
      end
  end.

Definition succeeded (c : Env * call) : bool :=
  match snd c with
  | Settled (Ok _) => true
  | _ => false
  end.

Definition settled (c : Env * call) : bool :=
  match snd c with
  | Settled _ => true
  | _ => false
  end.

Definition successes (calls : list (Env * call)) : nat :=
  length (filter (fun c => succeeded c = true) calls).

Definition trades_of_quote (quoteId : string) (st : Store) : list TradeRow :=
  filter (fun t => t_quoteId t = Some quoteId) (trades st).

End Concurrent.

(** ** The specification's wording, for comparison with the code *)

Module Spec.
Import JsNumber Money Types Errors Db.

(** Modelled from the spec: [fromScaled] "renders exactly 8 fractional
    digits, zero-padded", the "sign prefixes the whole value". *)
Definition fixed8 (s : Z) : string :=
  (if s <? 0 then "-" else "")
  +:+ toString (Z.abs s / SCALE) +:+ "." +:+ padStart0 8 (toString (Z.abs s mod SCALE)).

(** Modelled from the spec: [multiply(a, b)] is "⌊(a×b)/SCALE⌋". *)
Definition floor_multiply (a b : Z) : Z := (a * b) / SCALE.

(** The 64-bit range of a scaled value. *)
Definition int64 (a : Z) : Prop := - 2 ^ 63 <= a < 2 ^ 63.

(** Modelled from the spec: "BUY applies the ask-side price plus markup,
    SELL applies the bid-side price minus markup". *)
Definition marked_up (side : Side) (bid ask markup : Z) : Z :=
  match side with
  | BUY => ask + markup
  | SELL => bid - markup
  end.

(** Modelled from the spec: [debit] "decreases the balance by amount only
    if the current balance ≥ amount" and "fails with InsufficientBalance
    when the guard fails", the current balance being 0 without a row. *)
Definition debit_as_stated (env : Env) (accountId currency : string)
    (amount : Z) (st : Store) : Prop :=
  let current := BalanceService.getBalance accountId currency st in
  (amount <= current ->
     exists st', BalanceService.debit env accountId currency amount st = (st', Ok tt)
       /\ BalanceService.getBalance accountId currency st' = current - amount)
  /\ (current < amount ->
        BalanceService.debit env accountId currency amount st
        = (st, Throw insufficientBalance)).

End Spec.

(** ** Concrete data for the examples

    The seeded account of the tests (10000 USDT, 5000 EUR, 0.5 BTC), a
    price feed, and the binary64 values [parseFloat] gives for the strings
    that occur. *)

Module Scenario.
Import JsNumber Money Types Errors Db.

Definition parseFloat0 (s : string) : number :=
  if String.eqb s "1.17920000" then Num 5310644680595289 (-52)
  else if String.eqb s "1.17900000" then Num 5309743960669815 (-52)
  else if String.eqb s "67045.01000000" then Num 4607298004959887 (-36)
  else if String.eqb s "67045.01000001" then Num 4607298004960575 (-36)
  else of_Z 0.

Definition bookTicker0 (sym : string) : option BinanceBookTicker :=
  if String.eqb sym "EURUSDT"
  then Some {| bt_symbol := "EURUSDT"; bidPrice := "1.17900000"; bidQty := "1";
               askPrice := "1.17920000"; askQty := "1" |}
  else None.

Definition tickerPrice0 (sym : string) : option BinanceTickerPrice :=
  if String.eqb sym "EURUSDT"
  then Some {| tp_symbol := "EURUSDT"; tp_price := "1.17920000" |}
  else if String.eqb sym "BTCUSDT"
  then Some {| tp_symbol := "BTCUSDT"; tp_price := "67045.01000001" |}
  else None.

(** A call at time [t] drawing the identifiers [id] and [bid]. *)
Definition env_at (t : Z) (id bid : string) : Env :=
  {| now := t; randomUUID := id; balanceUUID := bid;
     parseFloat := parseFloat0;
     fetchBookTicker := bookTicker0;
     fetchTickerPrice := tickerPrice0 |}.

Definition balance_row (id : string) (amount : Z) : BalanceRow :=
  {| b_id := id; b_amount := amount; b_updatedAt := 0 |}.

Definition seeded : Store :=
  {| accounts := {["test-account"]};
     balances :=
       <[("test-account", "USDT") := balance_row "b1" 1000000000000]>
         (<[("test-account", "EUR") := balance_row "b2" 500000000000]>
            (<[("test-account", "BTC") := balance_row "b3" 50000000]> ∅));
     quotes := ∅;
     trades := [] |}.

(** The same account holding 2000 BTC. *)
Definition whale : Store :=
  set_balances (insert ("test-account", "BTC") (balance_row "b3" 200000000000)) seeded.

(** The human-readable amounts [100], [5] and [1500.00000001]. *)
Definition n100 : number := of_Z 100.
Definition n5 : number := of_Z 5.
Definition n1500_00000001 : number := Num 1649267441674995 (-40).

(** An OPEN quote to buy 100 EUR, as [createQuote] stores it at time 1000. *)
Definition quote1 : QuoteRow :=
  {| q_accountId := "test-account"; q_baseCurrency := "EUR";
     q_quoteCurrency := "USDT"; q_side := BUY;
     q_baseAmount := 10000000000; q_quoteAmount := 11792000000;
     q_price := 117920000; q_expiresAt := 31000; q_status := OPEN;
     q_createdAt := 1000 |}.

Definition quoted : Store := set_quotes (insert "q-1" quote1) seeded.

(** Binance answering over HTTP with the book tickers above, and Binance
    out of service. *)
Definition http0 (sym : string) : Binance.Response BinanceBookTicker :=
  match bookTicker0 sym with
  | Some data => Binance.Http_ok data
  | None => Binance.Http_error 400
  end.

Definition http_down (sym : string) : Binance.Response BinanceBookTicker :=
  Binance.Http_error 503.

End Scenario.

(** * Properties *)

(** ** Rounding *)

Section RoundingFacts.
Import JsNumber Money.

Lemma pow2_pos (k : Z) : 0 <= k -> 0 < 2 ^ k.
Proof. intros. apply Z.pow_pos_nonneg; lia. Qed.

(** Rounding to nearest stays between the floor and the floor plus one. *)
Lemma rne_shift_ge (m k : Z) : 0 < k -> m / 2 ^ k <= rne_shift m k.
Proof.
  intros Hk. unfold rne_shift. rewrite Z.shiftr_div_pow2 by lia.
  repeat match goal with |- context [if ?b then _ else _] => destruct b end; lia.
Qed.

(** Rounding to nearest does not step over an integer. *)
Lemma rne_shift_le (m k n : Z) :
  0 < k -> m <= n * 2 ^ k -> rne_shift m k <= n.
Proof.
  intros Hk Hm. unfold rne_shift.
  rewrite Z.shiftr_div_pow2, Z.land_ones, Z.shiftl_mul_pow2 by lia.
  pose proof (pow2_pos k ltac:(lia)) as Hp.
  pose proof (pow2_pos (k - 1) ltac:(lia)) as Hh.
  pose proof (Z.div_mod m (2 ^ k) ltac:(lia)) as Hdm.
  pose proof (Z.mod_pos_bound m (2 ^ k) Hp) as Hr.
  assert (Hq : m / 2 ^ k <= n).
  { apply Z.div_le_upper_bound; [exact Hp | lia]. }
  assert (Hup : 0 < m mod 2 ^ k -> m / 2 ^ k + 1 <= n).
  { intros Hpos. destruct (Z.lt_ge_cases (m / 2 ^ k) n) as [Hlt|Hge]; [lia|].
    exfalso. nia. }
  destruct (m mod 2 ^ k <? 1 * 2 ^ (k - 1)) eqn:E1; [exact Hq|].
  apply Z.ltb_ge in E1.
  destruct (1 * 2 ^ (k - 1) <? m mod 2 ^ k) eqn:E2; [apply Hup; lia|].
  destruct (Z.even (m / 2 ^ k)); [exact Hq | apply Hup; lia].
Qed.

(** A value below the midpoint above [n] is not rounded beyond [n]. *)
Lemma rne_shift_below_midpoint (m k n : Z) :
  0 < k -> 2 * m < (2 * n + 1) * 2 ^ k -> rne_shift m k <= n.
Proof.
  intros Hk Hm. unfold rne_shift.
  rewrite Z.shiftr_div_pow2, Z.land_ones, Z.shiftl_mul_pow2 by lia.
  pose proof (pow2_pos (k - 1) ltac:(lia)) as Hh.
  assert (Hp : 2 ^ k = 2 * 2 ^ (k - 1)).
  { replace k with (1 + (k - 1)) at 1 by lia. rewrite Z.pow_add_r by lia. reflexivity. }
  pose proof (Z.div_mod m (2 ^ k) ltac:(lia)) as Hdm.
  pose proof (Z.mod_pos_bound m (2 ^ k) ltac:(lia)) as Hr.
  set (q := m / 2 ^ k) in *. set (r := m mod 2 ^ k) in *.
  set (h := 2 ^ (k - 1)) in *.
  destruct (r <? 1 * h) eqn:E1.
  - apply Z.ltb_lt in E1. nia.
  - apply Z.ltb_ge in E1.
    assert (q < n) by nia.
    destruct (1 * h <? r); [lia|]. destruct (Z.even q); lia.
Qed.

(** On a safe integer the binary64 quotient by [SCALE], floored, is the
    floor of the exact quotient. *)
Lemma Math_floor_div_SCALE (s : Z) :
  Z.abs s < two53 -> Math_floor (div (of_Z s) (of_Z SCALE)) = s / SCALE.
Proof.
  intros Hs. unfold div, of_Z. cbn [mant expo].
  destruct (s =? 0) eqn:E0.
  { apply Z.eqb_eq in E0. subst s. reflexivity. }
  apply Z.eqb_neq in E0.
  change (Z.log2 SCALE) with 26.
  set (L := Z.log2 (Z.abs s)).
  assert (HL : 0 <= L <= 52).
  { unfold L. split; [apply Z.log2_nonneg|].
    assert (Z.log2 (Z.abs s) < 53); [|lia].
    apply Z.log2_lt_pow2; [lia|]. exact Hs. }
  assert (HA : 2 ^ L <= Z.abs s < 2 ^ (L + 1)).
  { unfold L. replace (L + 1) with (Z.succ (Z.log2 (Z.abs s))) by (unfold L; lia).
    apply Z.log2_spec. lia. }
  replace (54 - L + 26) with (80 - L) by lia.
  set (k := 80 - L) in *.
  rewrite (Z.max_l k 0) by lia. rewrite (Z.max_r (- k) 0) by lia.
  change (2 ^ 0) with 1. rewrite Z.mul_1_r.
  assert (HP : 2 ^ L * 2 ^ k = 2 ^ 80).
  { rewrite <- Z.pow_add_r by lia. f_equal. lia. }
  assert (Hk28 : 2 ^ 28 <= 2 ^ k) by (apply Z.pow_le_mono_r; lia).
  pose proof (pow2_pos L ltac:(lia)) as HLpos.
  set (P := 2 ^ k) in *. set (A := 2 ^ L) in *.
  replace (2 ^ (L + 1)) with (2 * A) in HA
    by (unfold A; rewrite Z.pow_add_r by lia; change (2 ^ 1) with 2; lia).
  assert (HS : SCALE = 100000000) by reflexivity.
  pose proof (Z.div_mod (s * P) SCALE ltac:(lia)) as Hdm.
  pose proof (Z.mod_pos_bound (s * P) SCALE ltac:(lia)) as Hr.
  set (Q := s * P / SCALE) in *. set (r := (s * P) mod SCALE) in *.
  set (sticky := if r =? 0 then 0 else 1).
  assert (Hst : 0 <= sticky <= 1 /\ (r = 0 -> sticky = 0))
    by (unfold sticky; destruct (r =? 0) eqn:E; [|apply Z.eqb_neq in E]; lia).
  set (Q' := 2 * Q + sticky) in *.
  change (2 ^ 80) with 1208925819614629174706176 in HP.
  change (2 ^ 28) with 268435456 in Hk28.
  (* the size of the quotient *)
  assert (HQ' : 18014398509481984 <= Z.abs Q' < 72057594037927936).
  { destruct (Z.lt_ge_cases s 0) as [Hneg|Hpos].
    - assert (Q' < 0) by nia.
      rewrite Z.abs_neq by lia. rewrite Z.abs_neq in HA by lia.
      destruct (Z.eq_dec r 0) as [Hr0|Hr0]; nia.
    - rewrite Z.abs_eq in HA by lia.
      assert (0 <= Q') by nia. rewrite Z.abs_eq by lia. nia. }
  assert (Hbits : bits Q' = 55 \/ bits Q' = 56).
  { unfold bits. destruct (Q' =? 0) eqn:E; [apply Z.eqb_eq in E; lia|].
    assert (54 <= Z.log2 (Z.abs Q')).
    { apply Z.log2_le_pow2; [lia|]. change (2 ^ 54) with 18014398509481984. lia. }
    assert (Z.log2 (Z.abs Q') < 56).
    { apply Z.log2_lt_pow2; [lia|]. change (2 ^ 56) with 72057594037927936. lia. }
    lia. }
  (* the exact quotient *)
  pose proof (Z.div_mod s SCALE ltac:(lia)) as Hsn.
  pose proof (Z.mod_pos_bound s SCALE ltac:(lia)) as Hsr.
  set (n := s / SCALE) in *.
  assert (Hlow : n * P <= Q) by (apply Z.div_le_lower_bound; nia).
  assert (Hup : Q + 3 <= (n + 1) * P).
  { assert (Q * SCALE < ((n + 1) * P - 2) * SCALE); [|nia]. nia. }
  unfold round53. cbn [mant expo].
  assert (HPk : forall k', 0 <= k' <= k + 1 -> 2 ^ (k + 1 - k') * 2 ^ k' = 2 * P).
  { intros k' Hk'. rewrite <- Z.pow_add_r by lia.
    replace (k + 1 - k' + k') with (1 + k) by lia.
    rewrite Z.pow_add_r by lia. reflexivity. }
  destruct (bits Q' - 53 <=? 0) eqn:Ek; [apply Z.leb_le in Ek; lia|].
  set (k' := bits Q' - 53) in *.
  assert (Hk' : k' = 2 \/ k' = 3) by lia.
  unfold Math_floor. cbn [mant expo].
  destruct (0 <=? 0 - 0 - k - 1 + k') eqn:Ee; [apply Z.leb_le in Ee; lia|].
  replace (- (0 - 0 - k - 1 + k')) with (k + 1 - k') by lia.
  rewrite Z.shiftr_div_pow2 by lia.
  pose proof (HPk k' ltac:(lia)) as HT.
  pose proof (pow2_pos (k + 1 - k') ltac:(lia)) as HTpos.
  set (T := 2 ^ (k + 1 - k')) in *.
  assert (Hp' : 4 <= 2 ^ k' <= 8).
  { destruct Hk' as [->| ->]; cbn; lia. }
  symmetry. apply Z.div_unique_pos with (r := rne_shift Q' k' - n * T); [|lia].
  split.
  - assert (n * T <= Q' / 2 ^ k').
    { apply Z.div_le_lower_bound; [lia|]. nia. }
    pose proof (rne_shift_ge Q' k' ltac:(lia)). lia.
  - assert (rne_shift Q' k' <= (n + 1) * T - 1); [|lia].
    apply rne_shift_below_midpoint; [lia|]. nia.
Qed.

End RoundingFacts.

(** ** Scaled money *)

Section MoneyFacts.
Import JsNumber Money Spec.

Lemma bits_safe (n : Z) : Z.abs n < two53 -> bits n <= 53.
Proof.
  unfold bits, two53. intros Hn.
  destruct (n =? 0) eqn:E; [lia|].
  apply Z.eqb_neq in E.
  assert (Z.log2 (Z.abs n) < 53); [|lia].
  apply Z.log2_lt_pow2; [lia|].
  change (2 ^ 53) with 9007199254740992. lia.
Qed.

(** A safe integer converts to a number without rounding. *)
Lemma Number_of_BigInt_safe (n : Z) : Z.abs n < two53 -> Number_of_BigInt n = n.
Proof.
  intros Hn. unfold Number_of_BigInt, round53, of_Z. cbn [mant expo].
  pose proof (bits_safe n Hn).
  destruct (bits n - 53 <=? 0) eqn:E; [|apply Z.leb_gt in E; lia].
  cbn [mant expo]. apply Z.shiftl_0_r.
Qed.

(** [scaledMultiply] is the quotient truncated towards zero wherever that
    quotient is a safe integer. *)
Lemma scaledMultiply_truncates (a b : Z) :
  Z.abs (Z.quot (a * b) SCALE) < two53 ->
  scaledMultiply a b = Z.quot (a * b) SCALE.
Proof. intros H. unfold scaledMultiply. now apply Number_of_BigInt_safe. Qed.

(** For a non-negative product whose quotient by [SCALE] is a safe
    integer (below 2^53), [scaledMultiply a b] is exactly the floor of
    [a * b / 10^8]; the product itself is never rounded. *)
Lemma scaledMultiply_floor (a b : Z) :
  0 <= a * b ->
  (a * b) / SCALE < two53 ->
  scaledMultiply a b = floor_multiply a b.
Proof.
  intros Hpos Hsafe. unfold floor_multiply.
  assert (Hq : Z.quot (a * b) SCALE = (a * b) / SCALE).
  { apply Z.quot_div_nonneg; [exact Hpos | unfold SCALE; lia]. }
  rewrite scaledMultiply_truncates; [exact Hq|].
  rewrite Hq. assert (0 <= (a * b) / SCALE).
  { apply Z.div_pos; [exact Hpos | unfold SCALE; lia]. }
  lia.
Qed.

(** 100 EUR at 1.17920000. *)
Lemma scaledMultiply_floor_example :
  0 <= 10000000000 * 117920000
  /\ (10000000000 * 117920000) / SCALE < two53
  /\ scaledMultiply 10000000000 117920000 = floor_multiply 10000000000 117920000.
Proof.
  split; [lia|]. split; [vm_compute; reflexivity|].
  apply (scaledMultiply_floor 10000000000 117920000); [lia | vm_compute; reflexivity].
Defined.

(** C9: inside the 64-bit range [scaledMultiply] does not always return
    the floor of [a * b / 10^8]. The product and the quotient are exact
    BigInts, but [Number(result)] rounds a quotient beyond 2^53 to the
    nearest binary64 value: 1500.00000001 times 67045.01000001 comes out one
    unit short, and the neighbour of the product that the test suite checks
    (50000 times 67000, which happens to be a binary64 value) comes out
    eight units short. *)
Theorem scaledMultiply_rounds_large_quotient :
  (int64 150000000001 /\ int64 6704501000001
   /\ int64 (floor_multiply 150000000001 6704501000001)
   /\ floor_multiply 150000000001 6704501000001 = 10056751500068545
   /\ scaledMultiply 150000000001 6704501000001 = 10056751500068544)
  /\ (scaledMultiply 5000000000000 6700000000000 = 335000000000000000
      /\ floor_multiply 5000000000000 6700000000000 = 335000000000000000)
  /\ (int64 5000000000001 /\ int64 6700000000001
      /\ floor_multiply 5000000000001 6700000000001 = 335000000000117000
      /\ scaledMultiply 5000000000001 6700000000001 = 335000000000116992).
Proof. unfold int64. repeat split; try lia; vm_compute; try reflexivity; discriminate. Qed.

(** On a negative product that [SCALE] does not divide, the result is
    one above the floor. *)
Lemma scaledMultiply_negative (a b : Z) :
  a * b < 0 ->
  (a * b) mod SCALE <> 0 ->
  Z.abs (Z.quot (a * b) SCALE) < two53 ->
  scaledMultiply a b = floor_multiply a b + 1.
Proof.
  intros Hneg Hrem Hsafe. rewrite scaledMultiply_truncates by exact Hsafe.
  unfold floor_multiply. set (p := a * b) in *.
  assert (HS : 0 < SCALE) by (unfold SCALE; lia).
  assert (Hq : Z.quot p SCALE = - ((- p) / SCALE)).
  { rewrite <- (Z.opp_involutive p) at 1.
    rewrite Z.quot_opp_l by lia.
    rewrite Z.quot_div_nonneg by lia. reflexivity. }
  assert (Hd : p / SCALE = - ((- p) / SCALE) - 1).
  { rewrite <- (Z.opp_involutive p) at 1.
    apply Z.div_opp_l_nz; [lia|].
    intros H0. apply Hrem.
    rewrite <- (Z.opp_involutive p). apply Z.mod_opp_l_z; [lia | exact H0]. }
  lia.
Qed.

End MoneyFacts.

Section FormatFacts.
Import JsNumber Money Spec.

(** For a non-negative safe integer the code renders what the
    specification asks for. *)
Lemma fromScaled_nonneg (s : Z) : 0 <= s < two53 -> fromScaled s = fixed8 s.
Proof.
  intros Hs. unfold fromScaled, fixed8.
  rewrite Math_floor_div_SCALE by lia.
  destruct (s <? 0) eqn:E; [apply Z.ltb_lt in E; lia|].
  rewrite Z.rem_mod_nonneg by (unfold SCALE; lia).
  rewrite (Z.abs_eq (s mod SCALE)) by (apply Z.mod_pos_bound; unfold SCALE; lia).
  rewrite (Z.abs_eq s) by lia.
  reflexivity.
Qed.

(** For a negative safe integer that is not a whole number of units, the
    integer part the code prints is the floor of the quotient, one unit
    below the integer part of the magnitude, while the fraction printed is
    that of the magnitude. *)
Lemma fromScaled_negative (s : Z) :
  - two53 < s < 0 ->
  s mod SCALE <> 0 ->
  fromScaled s
  = toString (- (Z.abs s / SCALE) - 1) +:+ "."
    +:+ padStart0 8 (toString (Z.abs s mod SCALE)).
Proof.
  intros Hneg Hrem. unfold fromScaled.
  rewrite Math_floor_div_SCALE by lia.
  assert (HS : 0 < SCALE) by (unfold SCALE; lia).
  assert (Habs : Z.abs s = - s) by lia.
  assert (Hd : s / SCALE = - (Z.abs s / SCALE) - 1).
  { rewrite Habs. rewrite <- (Z.opp_involutive s) at 1.
    apply Z.div_opp_l_nz; [lia|].
    intros H0. apply Hrem.
    rewrite <- (Z.opp_involutive s). apply Z.mod_opp_l_z; [lia | exact H0]. }
  assert (Hr : Z.abs (Z.rem s SCALE) = Z.abs s mod SCALE).
  { rewrite Habs. rewrite <- (Z.opp_involutive s) at 1.
    rewrite Z.rem_opp_l by lia.
    rewrite Z.rem_mod_nonneg by lia.
    rewrite Z.abs_opp. apply Z.abs_eq. apply Z.mod_pos_bound. exact HS. }
  rewrite Hd, Hr. reflexivity.
Qed.

(** Beyond the safe integers the division of [fromScaled] is a rounded
    one: the quotient of 3593262768499999744 by [10^8] lies within half a
    unit in the last place of the next integer and is rounded up to it. *)
Lemma fromScaled_beyond_safe :
  fromScaled 3593262768499999744 = "35932627685.99999744"
  /\ fixed8 3593262768499999744 = "35932627684.99999744"
  /\ fromScaled 335000000000000000 = "3350000000.00000000".
Proof. repeat split; vm_compute; reflexivity. Qed.

(** C5: on the specification's own example the code prints
    ["-2.50000000"], where the value is minus one and a half and the
    specification asks for ["-1.50000000"]; likewise minus one half is
    printed as ["-1.50000000"]. Zero and positive values are rendered as
    specified. *)
Theorem fromScaled_negative_example :
  fromScaled (-150000000) = "-2.50000000"
  /\ fixed8 (-150000000) = "-1.50000000"
  /\ fromScaled (-50000000) = "-1.50000000"
  /\ fixed8 (-50000000) = "-0.50000000"
  /\ fromScaled 0 = "0.00000000"
  /\ fromScaled 117920000 = "1.17920000".
Proof. repeat split; vm_compute; reflexivity. Qed.

End FormatFacts.

(** ** Balance ledger *)

Section LedgerFacts.
Import Types Errors Db BalanceService Spec.

Lemma debit_ok_inv env accountId currency amount st st' :
  debit env accountId currency amount st = (st', Ok tt) ->
  exists row,
    balances st !! (accountId, currency) = Some row
    /\ amount <= b_amount row
    /\ st' = set_balances
               (insert (accountId, currency)
                  {| b_id := b_id row; b_amount := b_amount row - amount;
                     b_updatedAt := now env |}) st.
Proof.
  unfold debit, debit_update. intros H.
  destruct (balances st !! (accountId, currency)) as [row|] eqn:Hrow;
    [|simpl in H; discriminate].
  destruct (amount <=? b_amount row) eqn:Hle; [|simpl in H; discriminate].
  simpl in H. inversion H; subst. exists row.
  split; [reflexivity|]. split; [apply Z.leb_le; exact Hle | reflexivity].
Qed.

Lemma debit_throw_inv env accountId currency amount st st' e :
  debit env accountId currency amount st = (st', Throw e) ->
  st' = st /\ e = insufficientBalance.
Proof.
  unfold debit. intros H.
  destruct (debit_update _ _ _ _ _) as [tbl changes].
  destruct (changes =? 0); inversion H; auto.
Qed.

Lemma getBalance_set_balances_insert accountId currency row st a c :
  getBalance a c (set_balances (insert (accountId, currency) row) st)
  = if decide ((accountId, currency) = (a, c)) then b_amount row
    else getBalance a c st.
Proof.
  unfold getBalance, set_balances. cbn [balances].
  rewrite lookup_insert. destruct (decide _); reflexivity.
Qed.

(** C1, as amended: [debit] succeeds exactly when a balance row exists
    and holds at least [amount]; it then lowers that balance by exactly
    [amount] and touches nothing else. In every other case, a missing row
    included, it throws InsufficientBalance and the store is unchanged. For
    a positive [amount] the guard is the one of the specification: the
    current balance, 0 without a row, is at least [amount]. *)
Theorem debit_guarded env accountId currency amount st :
  let guard :=
    exists row, balances st !! (accountId, currency) = Some row
                /\ amount <= b_amount row in
  (guard ->
     exists st', debit env accountId currency amount st = (st', Ok tt)
       /\ getBalance accountId currency st'
          = getBalance accountId currency st - amount
       /\ (forall a c, (a, c) <> (accountId, currency) ->
             balances st' !! (a, c) = balances st !! (a, c))
       /\ quotes st' = quotes st /\ trades st' = trades st
       /\ accounts st' = accounts st)
  /\ (~ guard ->
        debit env accountId currency amount st = (st, Throw insufficientBalance))
  /\ (0 < amount -> (guard <-> amount <= getBalance accountId currency st)).
Proof.
  cbv zeta. split; [|split].
  - intros (row & Hrow & Hle).
    exists (set_balances
              (insert (accountId, currency)
                 {| b_id := b_id row; b_amount := b_amount row - amount;
                    b_updatedAt := now env |}) st).
    split.
    + unfold debit, debit_update. rewrite Hrow.
      apply Z.leb_le in Hle. rewrite Hle. simpl. reflexivity.
    + split.
      * rewrite getBalance_set_balances_insert.
        destruct (decide _); [|congruence].
        unfold getBalance. rewrite Hrow. reflexivity.
      * split; [|auto].
        intros a c Hne. cbn [set_balances balances].
        apply lookup_insert_ne. congruence.
  - intros Hno. unfold debit, debit_update.
    destruct (balances st !! (accountId, currency)) as [row|] eqn:Hrow;
      [|reflexivity].
    destruct (amount <=? b_amount row) eqn:Hle; [|reflexivity].
    exfalso. apply Hno. exists row. split; [reflexivity|].
    apply Z.leb_le. exact Hle.
  - intros Hpos. unfold getBalance. split.
    + intros (row & Hrow & Hle). rewrite Hrow. exact Hle.
    + intros Hle.
      destruct (balances st !! (accountId, currency)) as [row|]; [|lia].
      exists row. split; [reflexivity | exact Hle].
Qed.

(** C1, as stated, fails where no balance row exists and the amount is
    zero: the current balance 0 is at least the amount, yet [debit] throws
    InsufficientBalance. *)
Lemma debit_as_stated_counterexample :
  let env := {| now := 0; randomUUID := "t"; balanceUUID := "b";
                parseFloat := fun _ => JsNumber.of_Z 0;
                fetchBookTicker := fun _ => None;
                fetchTickerPrice := fun _ => None |} in
  let st := {| accounts := {["acc"]}; balances := ∅; quotes := ∅; trades := [] |} in
  getBalance "acc" "EUR" st = 0
  /\ debit env "acc" "EUR" 0 st = (st, Throw insufficientBalance)
  /\ ~ debit_as_stated env "acc" "EUR" 0 st.
Proof.
  cbv zeta. split; [reflexivity|]. split; [reflexivity|].
  intros [Hok _].
  destruct Hok as (st' & Hdebit & _); [vm_compute; discriminate|].
  discriminate Hdebit.
Qed.

End LedgerFacts.

Section CreditFacts.
Import Types Errors Db BalanceService.

Lemma credit_ok_inv env accountId currency amount st st' :
  credit env accountId currency amount st = (st', Ok tt) ->
  exists row,
    st' = set_balances (insert (accountId, currency) row) st
    /\ b_amount row = getBalance accountId currency st + amount.
Proof.
  unfold credit, getBalance. intros H.
  destruct (balances st !! (accountId, currency)) as [row|] eqn:Hrow.
  - inversion H; subst. eexists. split; [reflexivity|]. reflexivity.
  - destruct (existsb _ _); [discriminate|].
    destruct (bool_decide _); [|discriminate].
    inversion H; subst. eexists. split; [reflexivity|]. cbn. lia.
Qed.

Lemma credit_throw_inv env accountId currency amount st st' e :
  credit env accountId currency amount st = (st', Throw e) -> st' = st.
Proof.
  unfold credit. intros H.
  destruct (balances st !! (accountId, currency)); [discriminate|].
  destruct (existsb _ _); [inversion H; reflexivity|].
  destruct (bool_decide _); [discriminate | inversion H; reflexivity].
Qed.

End CreditFacts.

(** ** Trade execution *)

Section CommitFacts.
Import JsNumber Money Types Errors Db BalanceService TradeService Spec.

Lemma insert_trade_ok_inv row st st' :
  insert_trade row st = (st', Ok tt) ->
  st' = set_trades (fun ts => ts ++ [row]) st.
Proof.
  unfold insert_trade. intros H.
  destruct (existsb _ _); [discriminate|].
  destruct (bool_decide _); [|discriminate].
  inversion H; reflexivity.
Qed.

(** A transaction that throws leaves the store as it found it. *)
Lemma executeTradeTx_throw env accountId baseCurrency quoteCurrency side
    baseAmount quoteAmount price type quoteId tradeId now st st' e :
  executeTradeTx env accountId baseCurrency quoteCurrency side baseAmount
    quoteAmount price type quoteId tradeId now st = (st', Throw e) ->
  st' = st.
Proof.
  unfold executeTradeTx, transaction. intros H.
  destruct (executeTradeTx_body _ _ _ _ _ _ _ _ _ _ _ _ _) as [st1 [[]|e1]];
    inversion H; reflexivity.
Qed.

(** A committed transaction is a debit, a credit, the optional quote
    update and the insert of the trade row, in this order. *)
Lemma executeTradeTx_ok env accountId baseCurrency quoteCurrency side
    baseAmount quoteAmount price type quoteId tradeId now st st' :
  executeTradeTx env accountId baseCurrency quoteCurrency side baseAmount
    quoteAmount price type quoteId tradeId now st = (st', Ok tt) ->
  exists st1 st2,
    debit env accountId (debitCurrency side baseCurrency quoteCurrency)
      (debitAmount side baseAmount quoteAmount) st = (st1, Ok tt)
    /\ credit env accountId (creditCurrency side baseCurrency quoteCurrency)
         (creditAmount side baseAmount quoteAmount) st1 = (st2, Ok tt)
    /\ st' = set_trades
               (fun ts => ts ++
                  [{| t_id := tradeId; t_accountId := accountId;
                      t_quoteId := quoteId; t_type := type;
                      t_baseCurrency := baseCurrency;
                      t_quoteCurrency := quoteCurrency; t_side := side;
                      t_baseAmount := baseAmount; t_quoteAmount := quoteAmount;
                      t_price := price; t_executedAt := now;
                      t_createdAt := now |}])
               (match truthy quoteId with
                | Some id => set_quotes (alter (with_status EXECUTED) id) st2
                | None => st2
                end).
Proof.
  unfold executeTradeTx, transaction, executeTradeTx_body.
  unfold mbind, M_bind, bind. intros H.
  destruct (debit _ _ _ _ st) as [st1 [[]|e1]] eqn:Hd; [|discriminate].
  destruct (credit _ _ _ _ st1) as [st2 [[]|e2]] eqn:Hc; [|discriminate].
  exists st1, st2. split; [reflexivity|]. split; [exact Hc|].
  destruct (truthy quoteId) as [id|]; cbn in H.
  - destruct (insert_trade _ _) as [st4 [[]|e4]] eqn:Hi; [|discriminate].
    apply insert_trade_ok_inv in Hi. inversion H; subst. reflexivity.
  - destruct (insert_trade _ _) as [st4 [[]|e4]] eqn:Hi; [|discriminate].
    apply insert_trade_ok_inv in Hi. inversion H; subst. reflexivity.
Qed.

Lemma executeTrade_throw env accountId baseCurrency quoteCurrency side
    baseAmount price type quoteId st st' e :
  executeTrade env accountId baseCurrency quoteCurrency side baseAmount
    price type quoteId st = (st', Throw e) ->
  st' = st.
Proof.
  unfold executeTrade, mbind, M_bind, bind. intros H.
  destruct (executeTradeTx _ _ _ _ _ _ _ _ _ _ _ _ st) as [st1 [[]|e1]] eqn:Htx.
  - discriminate.
  - apply executeTradeTx_throw in Htx. inversion H; subst. reflexivity.
Qed.

Lemma executeTrade_ok env accountId baseCurrency quoteCurrency side
    baseAmount price type quoteId st st' resp :
  executeTrade env accountId baseCurrency quoteCurrency side baseAmount
    price type quoteId st = (st', Ok resp) ->
  executeTradeTx env accountId baseCurrency quoteCurrency side baseAmount
    (scaledMultiply baseAmount price) price type quoteId (randomUUID env)
    (now env) st = (st', Ok tt).
Proof.
  unfold executeTrade, mbind, M_bind, bind. intros H.
  destruct (executeTradeTx _ _ _ _ _ _ _ _ _ _ _ _ st) as [st1 [[]|e1]] eqn:Htx;
    [|discriminate].
  inversion H; subst. reflexivity.
Qed.

End CommitFacts.

Section SettlementFacts.
Import JsNumber Money Types Errors Db BalanceService TradeService Spec.

Lemma getBalance_marked quoteId a c st :
  getBalance a c
    (match truthy quoteId with
     | Some id => set_quotes (alter (with_status EXECUTED) id) st
     | None => st
     end) = getBalance a c st.
Proof. destruct (truthy quoteId); reflexivity. Qed.

Lemma balances_marked quoteId st :
  balances
    (match truthy quoteId with
     | Some id => set_quotes (alter (with_status EXECUTED) id) st
     | None => st
     end) = balances st.
Proof. destruct (truthy quoteId); reflexivity. Qed.

Lemma trades_marked quoteId st :
  trades
    (match truthy quoteId with
     | Some id => set_quotes (alter (with_status EXECUTED) id) st
     | None => st
     end) = trades st.
Proof. destruct (truthy quoteId); reflexivity. Qed.

(** The balances after a committed transaction, currency by currency. *)
Lemma executeTradeTx_balances env accountId baseCurrency quoteCurrency side
    baseAmount quoteAmount price type quoteId tradeId t st st' :
  executeTradeTx env accountId baseCurrency quoteCurrency side baseAmount
    quoteAmount price type quoteId tradeId t st = (st', Ok tt) ->
  (forall c,
     getBalance accountId c st'
     = getBalance accountId c st
       - (if decide (c = debitCurrency side baseCurrency quoteCurrency)
          then debitAmount side baseAmount quoteAmount else 0)
       + (if decide (c = creditCurrency side baseCurrency quoteCurrency)
          then creditAmount side baseAmount quoteAmount else 0))
  /\ (forall a c, a <> accountId ->
        balances st' !! (a, c) = balances st !! (a, c)).
Proof.
  intros H. apply executeTradeTx_ok in H as (st1 & st2 & Hd & Hc & ->).
  apply debit_ok_inv in Hd as (row & Hrow & Hle & ->).
  apply credit_ok_inv in Hc as (rowc & -> & Hamt).
  set (dc := debitCurrency side baseCurrency quoteCurrency) in *.
  set (cc := creditCurrency side baseCurrency quoteCurrency) in *.
  set (da := debitAmount side baseAmount quoteAmount) in *.
  set (ca := creditAmount side baseAmount quoteAmount) in *.
  rewrite getBalance_set_balances_insert in Hamt.
  split.
  - intros c.
    change (getBalance accountId c (set_trades ?f ?s)) with (getBalance accountId c s).
    rewrite getBalance_marked.
    rewrite !getBalance_set_balances_insert.
    assert (Hst : getBalance accountId dc st = b_amount row)
      by (unfold getBalance; rewrite Hrow; reflexivity).
    destruct (decide ((accountId, cc) = (accountId, c))) as [E1|E1];
      destruct (decide ((accountId, dc) = (accountId, c))) as [E2|E2];
      destruct (decide ((accountId, dc) = (accountId, cc))) as [E3|E3];
      destruct (decide (c = dc)) as [E4|E4];
      destruct (decide (c = cc)) as [E5|E5];
      try congruence; cbn [b_amount] in *; subst; try lia;
      try (rewrite Hamt); try lia.
    all: try (rewrite <- Hst; lia).
  - intros a c Hne.
    change (balances (set_trades ?f ?s)) with (balances s).
    rewrite balances_marked. cbn [set_balances balances].
    rewrite !lookup_insert_ne by congruence. reflexivity.
Qed.

(** A committed trade pays [quoteAmount] of the quote currency and
    receives [baseAmount] of the base currency on a BUY, and the reverse on
    a SELL; the trade row carries the price it was given and
    [quoteAmount = scaledMultiply baseAmount price], which is the floor of
    [baseAmount * price / 10^8] whenever the product is non-negative and the
    quotient is a safe integer. *)
Lemma executeTrade_settles env accountId baseCurrency quoteCurrency side
    baseAmount price type quoteId st st' resp :
  executeTrade env accountId baseCurrency quoteCurrency side baseAmount
    price type quoteId st = (st', Ok resp) ->
  let quoteAmount := scaledMultiply baseAmount price in
  (forall c,
     getBalance accountId c st'
     = getBalance accountId c st
       - (if decide (c = match side with BUY => quoteCurrency | SELL => baseCurrency end)
          then match side with BUY => quoteAmount | SELL => baseAmount end
          else 0)
       + (if decide (c = match side with BUY => baseCurrency | SELL => quoteCurrency end)
          then match side with BUY => baseAmount | SELL => quoteAmount end
          else 0))
  /\ (forall a c, a <> accountId ->
        balances st' !! (a, c) = balances st !! (a, c))
  /\ (exists t,
        trades st' = trades st ++ [t]
        /\ t_side t = side /\ t_price t = price
        /\ t_baseAmount t = baseAmount /\ t_quoteAmount t = quoteAmount)
  /\ (0 <= baseAmount * price ->
      baseAmount * price / SCALE < two53 ->
      quoteAmount = floor_multiply baseAmount price).
Proof.
  intros H. cbv zeta. apply executeTrade_ok in H.
  pose proof (executeTradeTx_balances _ _ _ _ _ _ _ _ _ _ _ _ _ _ H) as [Hb Ho].
  split; [exact Hb|]. split; [exact Ho|]. split.
  - apply executeTradeTx_ok in H as (st1 & st2 & Hd & Hc & ->).
    eexists. split.
    + cbn [set_trades trades]. rewrite trades_marked.
      apply debit_ok_inv in Hd as (row & _ & _ & ->).
      apply credit_ok_inv in Hc as (rowc & -> & _). reflexivity.
    + cbn. auto.
  - intros Hpos Hsafe. unfold floor_multiply.
    assert (Hq : Z.quot (baseAmount * price) SCALE = baseAmount * price / SCALE).
    { apply Z.quot_div_nonneg; [exact Hpos | unfold SCALE; lia]. }
    rewrite scaledMultiply_truncates; [exact Hq|].
    rewrite Hq.
    assert (0 <= baseAmount * price / SCALE)
      by (apply Z.div_pos; [exact Hpos | unfold SCALE; lia]).
    lia.
Qed.

End SettlementFacts.

Section SettlementExamples.
Import JsNumber Money Types Errors Db BalanceService TradeService Spec Scenario.

(** A market BUY of 100 EUR at 1.17920000 on the seeded account. *)
Lemma executeTrade_settles_example :
  exists st' resp,
    executeTrade (env_at 2000 "t-1" "b-9") "test-account" "EUR" "USDT" BUY
      10000000000 117920000 MARKET None seeded = (st', Ok resp)
    /\ getBalance "test-account" "USDT" st' = 1000000000000 - 11792000000
    /\ getBalance "test-account" "EUR" st' = 500000000000 + 10000000000
    /\ scaledMultiply 10000000000 117920000 = floor_multiply 10000000000 117920000.
Proof.
  eexists _, _. split; [vm_compute; reflexivity|].
  match goal with
  | |- getBalance _ _ ?s = _ /\ _ =>
      assert (H : executeTrade (env_at 2000 "t-1" "b-9") "test-account" "EUR"
                    "USDT" BUY 10000000000 117920000 MARKET None seeded
                  = (s, Ok {| tr_id := "t-1"; tr_type := MARKET;
                              tr_baseCurrency := "EUR"; tr_quoteCurrency := "USDT";
                              tr_side := BUY; tr_baseAmount := "100.00000000";
                              tr_quoteAmount := "117.92000000";
                              tr_price := "1.17920000";
                              tr_executedAt := 2000; tr_createdAt := 2000 |}))
        by (vm_compute; reflexivity)
  end.
  destruct (executeTrade_settles _ _ _ _ _ _ _ _ _ _ _ _ H) as (Hb & _ & _ & Hf).
  split; [exact (Hb "USDT")|]. split; [exact (Hb "EUR")|].
  apply Hf; vm_compute; [discriminate | reflexivity].
Defined.

(** C2: a commit whose quote amount lies beyond 2^53 does not settle
    the floor of [baseAmount * price / 10^8]. The market SELL of
    1500.00000001 BTC at 67045.01000001 commits; the legs are as the
    specification has them (the base amount is debited, the quote amount
    credited, the price stored as given), but the quote amount that is
    credited and stored is 100567515.00068544, the binary64 value next to
    the floor 100567515.00068545. *)
Theorem executeTrade_rounds_quote_amount :
  let r := executeTrade (env_at 2000 "t-1" "b-9") "test-account" "BTC" "USDT"
             SELL 150000000001 6704501000001 MARKET None whale in
  let m := executeMarketTrade (env_at 2000 "t-1" "b-9") "test-account" "BTC"
             "USDT" SELL n1500_00000001 whale in
  (exists resp, snd r = Ok resp)
  /\ m = r
  /\ map t_baseAmount (trades (fst r)) = [150000000001]
  /\ map t_price (trades (fst r)) = [6704501000001]
  /\ map t_quoteAmount (trades (fst r)) = [10056751500068544]
  /\ getBalance "test-account" "BTC" (fst r)
     = getBalance "test-account" "BTC" whale - 150000000001
  /\ getBalance "test-account" "USDT" (fst r)
     = getBalance "test-account" "USDT" whale + 10056751500068544
  /\ floor_multiply 150000000001 6704501000001 = 10056751500068545.
Proof.
  cbv zeta. split; [eexists; vm_compute; reflexivity|].
  repeat split; vm_compute; reflexivity.
Qed.

End SettlementExamples.

(** ** Quote lifecycle *)

Section RfqFacts.
Import JsNumber Money Types Errors Db BalanceService TradeService Spec System.

Lemma status_cases (s : QuoteStatus) : s = OPEN \/ s = EXECUTED \/ s = EXPIRED.
Proof. destruct s; auto. Qed.

(** What [executeRfqTrade] has checked, on the row its SELECT read, when
    it returns a trade. *)
Lemma executeRfqTrade_ok_inv env accountId quoteId seen st st' resp :
  executeRfqTrade env accountId quoteId seen st = (st', Ok resp) ->
  exists q,
    quotes seen !! quoteId = Some q
    /\ q_accountId q = accountId
    /\ q_status q = OPEN
    /\ now env <= q_expiresAt q
    /\ executeTrade env accountId (q_baseCurrency q) (q_quoteCurrency q)
         (q_side q) (q_baseAmount q) (q_price q) RFQ (Some quoteId) st
       = (st', Ok resp).
Proof.
  unfold executeRfqTrade, executeRfqTrade_resume, selectQuote. intros H.
  destruct (quotes seen !! quoteId) as [q|] eqn:Hq; [|discriminate].
  destruct (String.eqb (q_accountId q) accountId) eqn:Hacc; cbn in H;
    [|discriminate].
  destruct (bool_decide (q_status q = EXECUTED)) eqn:Hex; [discriminate|].
  destruct (bool_decide (q_status q = EXPIRED)) eqn:Hxp; cbn in H;
    [discriminate|].
  destruct (q_expiresAt q <? now env) eqn:Hlt.
  { unfold mbind, M_bind, bind in H. cbn in H. discriminate. }
  exists q. split; [reflexivity|].
  split; [apply String.eqb_eq; exact Hacc|].
  apply bool_decide_eq_false in Hex. apply bool_decide_eq_false in Hxp.
  split; [destruct (status_cases (q_status q)) as [?|[?|?]]; congruence|].
  split; [apply Z.ltb_ge; exact Hlt | exact H].
Qed.

(** What [executeRfqTrade] leaves behind when it throws: the store as it
    found it, or that store with the status of the quote overwritten by
    EXPIRED, the row its SELECT read having been OPEN and past its
    expiry. *)
Lemma executeRfqTrade_throw_inv env accountId quoteId seen st st' e :
  executeRfqTrade env accountId quoteId seen st = (st', Throw e) ->
  st' = st
  \/ (exists q,
        quotes seen !! quoteId = Some q /\ q_status q = OPEN
        /\ q_expiresAt q < now env /\ e = quoteExpired
        /\ st' = set_quotes (alter (with_status EXPIRED) quoteId) st).
Proof.
  unfold executeRfqTrade, executeRfqTrade_resume, selectQuote. intros H.
  destruct (quotes seen !! quoteId) as [q|] eqn:Hq;
    [|inversion H; left; reflexivity].
  destruct (String.eqb (q_accountId q) accountId) eqn:Hacc; cbn in H;
    [|inversion H; left; reflexivity].
  destruct (bool_decide (q_status q = EXECUTED)) eqn:Hex;
    [inversion H; left; reflexivity|].
  destruct (bool_decide (q_status q = EXPIRED)) eqn:Hxp; cbn in H.
  { unfold mbind, M_bind, bind in H. cbn in H. inversion H. left. reflexivity. }
  destruct (q_expiresAt q <? now env) eqn:Hlt.
  - unfold mbind, M_bind, bind in H. cbn in H. inversion H; subst. right.
    exists q. apply bool_decide_eq_false in Hex. apply bool_decide_eq_false in Hxp.
    split; [reflexivity|].
    split; [destruct (status_cases (q_status q)) as [?|[?|?]]; congruence|].
    split; [apply Z.ltb_lt; exact Hlt|]. split; reflexivity.
  - apply executeTrade_throw in H. left. exact H.
Qed.

(** A call of [executeRfqTrade] that throws leaves every balance and the
    trade log as it found them, whatever was written between its SELECT and
    its resumption; of the quotes it changes at most the status of its own,
    which it overwrites with EXPIRED on the expiry path. *)
Lemma executeRfqTrade_throw_ledger env accountId quoteId seen st st' e :
  executeRfqTrade env accountId quoteId seen st = (st', Throw e) ->
  balances st' = balances st
  /\ trades st' = trades st
  /\ accounts st' = accounts st
  /\ (quotes st' = quotes st
      \/ (e = quoteExpired
          /\ quotes st' = alter (with_status EXPIRED) quoteId (quotes st))).
Proof.
  intros H.
  apply executeRfqTrade_throw_inv in H as [->|(q & Hq & Hopen & _ & -> & ->)].
  - repeat split; auto.
  - repeat split; auto.
Qed.

End RfqFacts.

Section LifecycleFacts.
Import JsNumber Money Types Errors Db BalanceService TradeService QuoteService.
Import Spec System.

Lemma executeTrade_quotes env accountId baseCurrency quoteCurrency side
    baseAmount price type quoteId st st' resp :
  executeTrade env accountId baseCurrency quoteCurrency side baseAmount
    price type quoteId st = (st', Ok resp) ->
  quotes st'
  = match truthy quoteId with
    | Some id => alter (with_status EXECUTED) id (quotes st)
    | None => quotes st
    end.
Proof.
  intros H. apply executeTrade_ok in H.
  apply executeTradeTx_ok in H as (st1 & st2 & Hd & Hc & ->).
  apply debit_ok_inv in Hd as (row & _ & _ & ->).
  apply credit_ok_inv in Hc as (rowc & -> & _).
  destruct (truthy quoteId); reflexivity.
Qed.

Lemma truthy_Some_inv quoteId id : truthy (Some quoteId) = Some id -> id = quoteId.
Proof. cbn. destruct (String.eqb quoteId ""); congruence. Qed.

(** *** Calls served one after another *)

Lemma createQuote_step env accountId baseCurrency quoteCurrency side amount st :
  quotes_step (quotes st)
    (quotes (fst (createQuote env accountId baseCurrency quoteCurrency side amount st))).
Proof.
  unfold createQuote, validatePair, mbind, M_bind, bind, lift.
  destruct (negb (pair_supported baseCurrency quoteCurrency)); cbn;
    [apply quotes_same|].
  destruct (PriceService.getExecutionPrice env baseCurrency quoteCurrency side)
    as [ep|e]; cbn; [|apply quotes_same].
  unfold insert_quote.
  destruct (quotes st !! randomUUID env) eqn:Hid; cbn; [apply quotes_same|].
  destruct (bool_decide _); cbn; [|apply quotes_same].
  apply quotes_created; [exact Hid | reflexivity | reflexivity].
Qed.

Lemma getQuote_step env accountId quoteId st :
  quotes_step (quotes st) (quotes (fst (getQuote env accountId quoteId st st))).
Proof.
  unfold getQuote.
  destruct (quotes st !! quoteId) as [row|] eqn:Hrow; cbn; [|apply quotes_same].
  destruct (negb (String.eqb (q_accountId row) accountId)); cbn;
    [apply quotes_same|].
  destruct (bool_decide (q_status row = OPEN)) eqn:Hopen; cbn;
    [|apply quotes_same].
  destruct (q_expiresAt row <? now env); cbn; [|apply quotes_same].
  apply bool_decide_eq_true in Hopen.
  eapply quotes_closed; [exact Hrow | exact Hopen | right; reflexivity].
Qed.

Lemma executeRfqTrade_step env accountId quoteId st :
  quotes_step (quotes st) (quotes (fst (executeRfqTrade env accountId quoteId st st))).
Proof.
  destruct (executeRfqTrade env accountId quoteId st st) as [st' [resp|e]] eqn:H; cbn.
  - apply executeRfqTrade_ok_inv in H as (q & Hq & _ & Hopen & _ & H).
    apply executeTrade_quotes in H. rewrite H.
    destruct (truthy (Some quoteId)) as [id|] eqn:Ht; [|apply quotes_same].
    apply truthy_Some_inv in Ht. subst id.
    eapply quotes_closed; [exact Hq | exact Hopen | left; reflexivity].
  - apply executeRfqTrade_throw_inv in H as [->|(q & Hq & Hopen & _ & _ & ->)];
      [apply quotes_same|].
    eapply quotes_closed; [exact Hq | exact Hopen | right; reflexivity].
Qed.

Lemma executeMarketTrade_step env accountId baseCurrency quoteCurrency side amount st :
  quotes (fst (executeMarketTrade env accountId baseCurrency quoteCurrency side amount st))
  = quotes st.
Proof.
  unfold executeMarketTrade, mbind, M_bind, bind, lift.
  destruct (negb (pair_supported baseCurrency quoteCurrency)); cbn; [reflexivity|].
  destruct (PriceService.getMarketPrice env baseCurrency quoteCurrency)
    as [price|e]; cbn; [|reflexivity].
  destruct (executeTrade env accountId baseCurrency quoteCurrency side
              (toScaled amount) price MARKET None st) as [st' [resp|e]] eqn:H; cbn.
  - apply executeTrade_quotes in H. exact H.
  - apply executeTrade_throw in H. subst. reflexivity.
Qed.

(** Every public operation served alone changes the quotes by one
    lifecycle step. *)
Lemma run_op_step op st : quotes_step (quotes st) (quotes (run_op op st st)).
Proof.
  destruct op; cbn [run_op].
  - apply createQuote_step.
  - apply getQuote_step.
  - apply executeRfqTrade_step.
  - rewrite executeMarketTrade_step. apply quotes_same.
Qed.

Lemma status_step_refl s : status_step s s.
Proof. left. reflexivity. Qed.

Lemma status_step_trans s1 s2 s3 :
  status_step s1 s2 -> status_step s2 s3 -> status_step s1 s3.
Proof.
  unfold status_step. intros [->|[-> H1]] [->|[H2 H3]]; auto.
Qed.

(** A lifecycle step keeps every existing row, changing at most its
    status, and that only along OPEN -> EXECUTED or OPEN -> EXPIRED. *)
Lemma quotes_step_keeps qs qs' id q :
  quotes_step qs qs' ->
  qs !! id = Some q ->
  exists s', qs' !! id = Some (with_status s' q) /\ status_step (q_status q) s'.
Proof.
  intros Hstep Hq. destruct Hstep as [|id0 q0 Hnone _ _|id0 q0 s Hq0 Hopen Hs].
  - exists (q_status q). split; [|apply status_step_refl].
    rewrite Hq. destruct q; reflexivity.
  - exists (q_status q). split; [|apply status_step_refl].
    rewrite lookup_insert_ne by congruence.
    rewrite Hq. destruct q; reflexivity.
  - destruct (decide (id0 = id)) as [->|Hne].
    + exists s. rewrite lookup_alter_eq, Hq. split; [reflexivity|].
      assert (q0 = q) by congruence. subst q0.
      right. split; [exact Hopen | exact Hs].
    + exists (q_status q). split; [|apply status_step_refl].
      rewrite lookup_alter_ne by exact Hne.
      rewrite Hq. destruct q; reflexivity.
Qed.

Lemma with_status_with_status s s' q :
  with_status s' (with_status s q) = with_status s' q.
Proof. reflexivity. Qed.

(** When the calls are served one after another, none of them resuming
    after the write of another, a quote row stays in the table with its
    price and amounts, and its status either stays what it was or has moved
    from OPEN to EXECUTED or to EXPIRED; an EXECUTED or EXPIRED quote keeps
    its status. *)
Lemma quote_status_one_way ops st id q :
  quotes st !! id = Some q ->
  exists s',
    quotes (run_ops ops st) !! id = Some (with_status s' q)
    /\ status_step (q_status q) s'
    /\ (q_status q <> OPEN -> s' = q_status q).
Proof.
  revert st q. induction ops as [|op ops IH]; intros st q Hq.
  - exists (q_status q). cbn. split; [rewrite Hq; destruct q; reflexivity|].
    split; [apply status_step_refl | reflexivity].
  - cbn [run_ops fold_left].
    destruct (quotes_step_keeps _ _ id q (run_op_step op st) Hq) as (s1 & H1 & Hs1).
    destruct (IH (run_op op st st) _ H1) as (s2 & H2 & Hs2 & _).
    exists s2. rewrite with_status_with_status in H2. cbn in Hs2.
    split; [exact H2|].
    assert (Hs : status_step (q_status q) s2)
      by (eapply status_step_trans; eassumption).
    split; [exact Hs|].
    intros Hno. destruct Hs as [->|[Hopen _]]; [reflexivity | contradiction].
Qed.

(** *** Calls in any order *)

Lemma getQuote_write env accountId quoteId seen st :
  quotes_write (quotes st) (quotes (fst (getQuote env accountId quoteId seen st))).
Proof.
  unfold getQuote.
  destruct (quotes seen !! quoteId) as [row|]; cbn; [|apply quotes_kept].
  destruct (negb (String.eqb (q_accountId row) accountId)); cbn;
    [apply quotes_kept|].
  destruct (bool_decide (q_status row = OPEN) && (q_expiresAt row <? now env));
    cbn; [|apply quotes_kept].
  apply quotes_marked. right. reflexivity.
Qed.

Lemma executeRfqTrade_write env accountId quoteId seen st :
  quotes_write (quotes st)
    (quotes (fst (executeRfqTrade env accountId quoteId seen st))).
Proof.
  destruct (executeRfqTrade env accountId quoteId seen st) as [st' [resp|e]] eqn:H;
    cbn.
  - apply executeRfqTrade_ok_inv in H as (q & _ & _ & _ & _ & H).
    apply executeTrade_quotes in H. rewrite H.
    destruct (truthy (Some quoteId)) as [id|]; [|apply quotes_kept].
    apply quotes_marked. left. reflexivity.
  - apply executeRfqTrade_throw_inv in H as [->|(q & _ & _ & _ & _ & ->)];
      [apply quotes_kept|].
    apply quotes_marked. right. reflexivity.
Qed.

(** Every public operation, whatever was written between its SELECT and
    its write, leaves the quotes as they were, adds one, or overwrites the
    status of one. *)
Lemma run_op_write op seen st :
  quotes_write (quotes st) (quotes (run_op op seen st)).
Proof.
  destruct op; cbn [run_op].
  - destruct (createQuote_step env accountId baseCurrency quoteCurrency side
                amount st) as [|id q Hnone Hfr Hopen|id q s Hq Hopen Hs].
    + apply quotes_kept.
    + apply quotes_inserted; assumption.
    + apply quotes_marked. exact Hs.
  - apply getQuote_write.
  - apply executeRfqTrade_write.
  - rewrite executeMarketTrade_step. apply quotes_kept.
Qed.

(** A write keeps every existing row with its price and amounts. *)
Lemma quotes_write_keeps qs qs' id q :
  quotes_write qs qs' ->
  qs !! id = Some q ->
  exists s', qs' !! id = Some (with_status s' q).
Proof.
  intros Hw Hq. destruct Hw as [|id0 q0 Hnone _ _|id0 s Hs].
  - exists (q_status q). rewrite Hq. destruct q; reflexivity.
  - exists (q_status q). rewrite lookup_insert_ne by congruence.
    rewrite Hq. destruct q; reflexivity.
  - destruct (decide (id0 = id)) as [->|Hne].
    + exists s. rewrite lookup_alter_eq, Hq. reflexivity.
    + exists (q_status q). rewrite lookup_alter_ne by exact Hne.
      rewrite Hq. destruct q; reflexivity.
Qed.

(** A write keeps the rows frozen. *)
Lemma quotes_write_frozen qs qs' :
  quotes_write qs qs' ->
  (forall id q, qs !! id = Some q -> quote_frozen q) ->
  forall id q, qs' !! id = Some q -> quote_frozen q.
Proof.
  intros Hw Hall id q Hq.
  destruct Hw as [|id0 q0 Hnone Hfr _|id0 s Hs].
  - eapply Hall; exact Hq.
  - destruct (decide (id0 = id)) as [->|Hne].
    + rewrite lookup_insert_eq in Hq. congruence.
    + rewrite lookup_insert_ne in Hq by exact Hne. eapply Hall; exact Hq.
  - destruct (decide (id0 = id)) as [->|Hne].
    + rewrite lookup_alter_eq in Hq.
      destruct (qs !! id) as [q0|] eqn:Hq0; [|discriminate].
      cbn in Hq. inversion Hq; subst. apply (Hall id q0 Hq0).
    + rewrite lookup_alter_ne in Hq by exact Hne. eapply Hall; exact Hq.
Qed.

(** In every store of a run each quote row is as [createQuote] froze
    it. *)
Lemma history_frozen hist :
  history hist ->
  forall st, st ∈ hist -> forall id q, quotes st !! id = Some q -> quote_frozen q.
Proof.
  induction 1 as [st Hempty|st hist op seen _ IH Hseen]; intros st' Hin id q Hq.
  - apply list_elem_of_singleton in Hin. subst st'.
    rewrite Hempty in Hq. rewrite lookup_empty in Hq. discriminate.
  - apply elem_of_cons in Hin as [->|Hin]; [|eapply IH; eassumption].
    eapply quotes_write_frozen; [apply run_op_write| |exact Hq].
    intros id' q' Hq'. eapply IH; [left|exact Hq'].
Qed.

Lemma reachable_frozen st :
  reachable st -> forall id q, quotes st !! id = Some q -> quote_frozen q.
Proof.
  intros [hist Hh] id q Hq. eapply history_frozen; [exact Hh | left | exact Hq].
Qed.

(** A quote row that some store of a run holds is still held by the
    latest store, with the same price and amounts. *)
Lemma history_keeps st hist :
  history (st :: hist) ->
  forall seen, seen ∈ st :: hist ->
  forall id q, quotes seen !! id = Some q ->
  exists s, quotes st !! id = Some (with_status s q).
Proof.
  intros H. remember (st :: hist) as l eqn:El. revert st hist El.
  induction H as [st0 Hempty|st0 hist0 op seen0 _ IH Hseen0];
    intros st hist El seen Hin id q Hq; inversion El; subst.
  - apply list_elem_of_singleton in Hin. subst seen.
    exists (q_status q). rewrite Hq. destruct q; reflexivity.
  - apply elem_of_cons in Hin as [->|Hin].
    + exists (q_status q). rewrite Hq. destruct q; reflexivity.
    + destruct (IH st0 hist0 eq_refl seen Hin id q Hq) as (s & Hs).
      destruct (quotes_write_keeps _ _ id _ (run_op_write op seen0 st0) Hs)
        as (s' & Hs').
      exists s'. rewrite Hs'. reflexivity.
Qed.

(** C6: an RFQ trade that executes in a run of the service, from the
    quote row its SELECT read in some store of the run, inserts one trade
    row that refers to the quote and carries the quote's stored base
    amount, quote amount and price, which are also those of the row the
    store holds when the trade executes; the row read was OPEN and not past
    its expiry. *)
Theorem rfq_trade_carries_quote env accountId quoteId seen st hist st' resp q :
  history (st :: hist) ->
  seen ∈ st :: hist ->
  quotes seen !! quoteId = Some q ->
  executeRfqTrade env accountId quoteId seen st = (st', Ok resp) ->
  q_status q = OPEN /\ now env <= q_expiresAt q
  /\ (exists s, quotes st !! quoteId = Some (with_status s q))
  /\ exists t,
       trades st' = trades st ++ [t]
       /\ t_quoteId t = Some quoteId /\ t_type t = RFQ
       /\ t_baseAmount t = q_baseAmount q
       /\ t_quoteAmount t = q_quoteAmount q
       /\ t_price t = q_price q.
Proof.
  intros Hhist Hseen Hq H.
  pose proof (history_frozen _ Hhist seen Hseen quoteId q Hq) as Hfrozen.
  pose proof (history_keeps _ _ Hhist seen Hseen quoteId q Hq) as Hkept.
  apply executeRfqTrade_ok_inv in H as (q' & Hq' & _ & Hopen & Hexp & H).
  assert (q' = q) by congruence. subst q'.
  split; [exact Hopen|]. split; [exact Hexp|]. split; [exact Hkept|].
  apply executeTrade_ok in H.
  apply executeTradeTx_ok in H as (st1 & st2 & Hd & Hc & ->).
  apply debit_ok_inv in Hd as (row & _ & _ & ->).
  apply credit_ok_inv in Hc as (rowc & -> & _).
  eexists. split.
  - cbn [set_trades trades]. destruct (truthy (Some quoteId)); reflexivity.
  - cbn. rewrite Hfrozen. auto.
Qed.

End LifecycleFacts.

Section LifecycleExamples.
Import JsNumber Money Types Errors Db BalanceService TradeService QuoteService.
Import Spec System Scenario.

(** The quote of the scenario is executed, then read and executed again
    after its expiry, each call served alone: it stays EXECUTED. *)
Lemma quote_status_one_way_example :
  let ops :=
    [ ExecuteRfqTrade (env_at 2000 "t-1" "b-8") "test-account" "q-1";
      GetQuote (env_at 40000 "x" "y") "test-account" "q-1";
      ExecuteRfqTrade (env_at 40000 "t-2" "b-9") "test-account" "q-1" ] in
  quotes quoted !! "q-1" = Some quote1
  /\ quotes (run_ops ops quoted) !! "q-1" = Some (with_status EXECUTED quote1)
  /\ exists s',
       quotes (run_ops ops quoted) !! "q-1" = Some (with_status s' quote1)
       /\ status_step (q_status quote1) s'
       /\ (q_status quote1 <> OPEN -> s' = q_status quote1).
Proof.
  cbv zeta. split; [vm_compute; reflexivity|].
  split; [vm_compute; reflexivity|].
  apply (quote_status_one_way _ quoted "q-1" quote1). vm_compute. reflexivity.
Defined.

(** A quote created on the seeded account and executed one second later,
    no other call in between. *)
Lemma rfq_trade_carries_quote_witness :
  let st := run_op (CreateQuote (env_at 1000 "q-1" "b-7") "test-account" "EUR"
                      "USDT" BUY n100) seeded seeded in
  exists st' resp,
    history [st; seeded]
    /\ st ∈ [st; seeded]
    /\ quotes st !! "q-1" = Some quote1
    /\ executeRfqTrade (env_at 2000 "t-1" "b-9") "test-account" "q-1" st st
       = (st', Ok resp)
    /\ exists t,
         trades st' = trades st ++ [t]
         /\ t_quoteId t = Some "q-1" /\ t_type t = RFQ
         /\ t_baseAmount t = q_baseAmount quote1
         /\ t_quoteAmount t = q_quoteAmount quote1
         /\ t_price t = q_price quote1.
Proof.
  cbv zeta. eexists _, _.
  assert (Hhist : history
            [run_op (CreateQuote (env_at 1000 "q-1" "b-7") "test-account" "EUR"
                       "USDT" BUY n100) seeded seeded; seeded]).
  { apply history_step; [apply history_init; reflexivity | left]. }
  split; [exact Hhist|].
  assert (Hseen : run_op (CreateQuote (env_at 1000 "q-1" "b-7") "test-account"
                            "EUR" "USDT" BUY n100) seeded seeded
                  ∈ [run_op (CreateQuote (env_at 1000 "q-1" "b-7") "test-account"
                               "EUR" "USDT" BUY n100) seeded seeded; seeded])
    by left.
  split; [exact Hseen|].
  assert (Hq : quotes
                 (run_op (CreateQuote (env_at 1000 "q-1" "b-7") "test-account"
                            "EUR" "USDT" BUY n100) seeded seeded) !! "q-1"
               = Some quote1) by (vm_compute; reflexivity).
  split; [exact Hq|].
  split; [vm_compute; reflexivity|].
  match goal with
  | |- exists t, trades ?s = _ /\ _ =>
      assert (Hx : executeRfqTrade (env_at 2000 "t-1" "b-9") "test-account" "q-1"
                     (run_op (CreateQuote (env_at 1000 "q-1" "b-7") "test-account"
                                "EUR" "USDT" BUY n100) seeded seeded)
                     (run_op (CreateQuote (env_at 1000 "q-1" "b-7") "test-account"
                                "EUR" "USDT" BUY n100) seeded seeded)
                   = (s, Ok {| tr_id := "t-1"; tr_type := RFQ;
                               tr_baseCurrency := "EUR"; tr_quoteCurrency := "USDT";
                               tr_side := BUY; tr_baseAmount := "100.00000000";
                               tr_quoteAmount := "117.92000000";
                               tr_price := "1.17920000";
                               tr_executedAt := 2000; tr_createdAt := 2000 |}))
        by (vm_compute; reflexivity)
  end.
  exact (proj2 (proj2 (proj2
           (rfq_trade_carries_quote _ _ _ _ _ _ _ _ _ Hhist Hseen Hq Hx)))).
Defined.

End LifecycleExamples.

(** ** Calls in flight together *)

Section ConcurrencyFacts.
Import JsNumber Money Types Errors Db BalanceService TradeService.
Import Spec System Concurrent Scenario.

(** C3: two calls of [executeRfqTrade] on one OPEN quote, both having
    read the quote row before either resumes, both succeed: the quote is
    executed twice, the account pays twice, and two trade rows refer to the
    quote. Run one after the other, the second call is rejected with
    QuoteAlreadyExecuted. The specification asks for one success and one
    trade row under every interleaving. *)
Theorem concurrent_rfq_executes_twice :
  let calls := [ (env_at 2000 "t-1" "b-8", Issued);
                 (env_at 2000 "t-2" "b-9", Issued) ] in
  let together := run "test-account" "q-1" [0; 1; 0; 1]%nat calls quoted in
  let in_turn := run "test-account" "q-1" [0; 0; 1; 1]%nat calls quoted in
  (forallb settled (snd together) = true
   /\ successes (snd together) = 2%nat
   /\ length (trades_of_quote "q-1" (fst together)) = 2%nat
   /\ getBalance "test-account" "USDT" (fst together)
      = getBalance "test-account" "USDT" quoted - 2 * q_quoteAmount quote1
   /\ getBalance "test-account" "EUR" (fst together)
      = getBalance "test-account" "EUR" quoted + 2 * q_baseAmount quote1)
  /\ (successes (snd in_turn) = 1%nat
      /\ length (trades_of_quote "q-1" (fst in_turn)) = 1%nat
      /\ map snd (snd in_turn) !! 1%nat = Some (Settled (Throw quoteAlreadyExecuted))).
Proof. cbv zeta. repeat split; vm_compute; reflexivity. Qed.

End ConcurrencyFacts.

(** ** Calls that resume after the write of another *)

Section InterleavingFacts.
Import JsNumber Money Types Errors Db BalanceService TradeService QuoteService.
Import Spec System Concurrent Scenario.

(** C7: a call of [executeRfqTrade] that fails with NotFound,
    QuoteAlreadyExecuted or QuoteExpired changes no balance and inserts no
    trade row, whatever other calls wrote between its SELECT and its
    resumption. The status of the rejected quote, however, does not move
    at most from OPEN to EXPIRED: the UPDATE of the expiry path has no guard
    on the status, and a call that read the quote OPEN overwrites EXECUTED
    with EXPIRED when another call has executed the quote in between. Two
    calls issued together on the quote of the scenario, which expires at
    31000: both SELECTs are served, the first call resumes at 31000 and
    executes the quote, the second resumes at 31001 and is rejected with
    QuoteExpired. *)
Theorem executeRfqTrade_rejection_overwrites_executed :
  (forall env accountId quoteId seen st st' e,
     executeRfqTrade env accountId quoteId seen st = (st', Throw e) ->
     e = notFound \/ e = quoteAlreadyExecuted \/ e = quoteExpired ->
     balances st' = balances st
     /\ trades st' = trades st
     /\ accounts st' = accounts st
     /\ (quotes st' = quotes st
         \/ (e = quoteExpired
             /\ quotes st' = alter (with_status EXPIRED) quoteId (quotes st))))
  /\ (let calls := [ (env_at 31000 "t-1" "b-8", Issued);
                     (env_at 31001 "t-2" "b-9", Issued) ] in
      let before := run "test-account" "q-1" [0; 1; 0]%nat calls quoted in
      let after := run "test-account" "q-1" [0; 1; 0; 1]%nat calls quoted in
      map snd (snd before) !! 1%nat = Some (Selected (Some quote1))
      /\ q_status <$> quotes (fst before) !! "q-1" = Some EXECUTED
      /\ map snd (snd after) !! 1%nat = Some (Settled (Throw quoteExpired))
      /\ q_status <$> quotes (fst after) !! "q-1" = Some EXPIRED
      /\ balances (fst after) = balances (fst before)
      /\ trades (fst after) = trades (fst before)).
Proof.
  split.
  - intros env accountId quoteId seen st st' e H _.
    exact (executeRfqTrade_throw_ledger _ _ _ _ _ _ _ H).
  - cbv zeta. repeat split; vm_compute; reflexivity.
Qed.

(** C8: in a run of the service an EXECUTED quote does not keep its
    status. [getQuote] and [executeRfqTrade] decide on the row their SELECT
    read and write EXPIRED with an UPDATE that has no guard on the status.
    The quote of the scenario, created at 1000, expires at 31000. A call of
    [executeRfqTrade] and a second call, of [getQuote] or of
    [executeRfqTrade], have their SELECTs served while the quote is OPEN;
    the first resumes at 31000 and executes the quote, the second resumes at
    31001 and marks the executed quote EXPIRED. *)
Theorem quote_status_leaves_executed :
  let st0 := run_op (CreateQuote (env_at 1000 "q-1" "b-7") "test-account" "EUR"
                       "USDT" BUY n100) seeded seeded in
  let st1 := run_op (ExecuteRfqTrade (env_at 31000 "t-1" "b-8") "test-account"
                       "q-1") st0 st0 in
  let st2 := run_op (GetQuote (env_at 31001 "x" "y") "test-account" "q-1")
               st0 st1 in
  let st2' := run_op (ExecuteRfqTrade (env_at 31001 "t-2" "b-9") "test-account"
                        "q-1") st0 st1 in
  history [st2; st1; st0; seeded]
  /\ history [st2'; st1; st0; seeded]
  /\ quotes st0 !! "q-1" = Some quote1
  /\ quotes st1 !! "q-1" = Some (with_status EXECUTED quote1)
  /\ length (trades st1) = 1%nat
  /\ quotes st2 !! "q-1" = Some (with_status EXPIRED quote1)
  /\ quotes st2' !! "q-1" = Some (with_status EXPIRED quote1)
  /\ ~ status_step EXECUTED EXPIRED.
Proof.
  cbv zeta.
  assert (H0 : history
            [run_op (CreateQuote (env_at 1000 "q-1" "b-7") "test-account" "EUR"
                       "USDT" BUY n100) seeded seeded; seeded]).
  { apply history_step; [apply history_init; reflexivity | left]. }
  assert (H1 : forall op,
            history
              [run_op op
                 (run_op (CreateQuote (env_at 1000 "q-1" "b-7") "test-account"
                            "EUR" "USDT" BUY n100) seeded seeded)
                 (run_op (CreateQuote (env_at 1000 "q-1" "b-7") "test-account"
                            "EUR" "USDT" BUY n100) seeded seeded);
               run_op (CreateQuote (env_at 1000 "q-1" "b-7") "test-account" "EUR"
                         "USDT" BUY n100) seeded seeded; seeded]).
  { intros op. apply history_step; [exact H0 | left]. }
  split; [apply history_step; [apply H1 | right; left]|].
  split; [apply history_step; [apply H1 | right; left]|].
  split; [vm_compute; reflexivity|].
  split; [vm_compute; reflexivity|].
  split; [vm_compute; reflexivity|].
  split; [vm_compute; reflexivity|].
  split; [vm_compute; reflexivity|].
  unfold status_step. intros [H|[H _]]; discriminate H.
Qed.

End InterleavingFacts.

(** ** Quote selection *)

Section SelectionFacts.
Import JsNumber Money Types Errors Sor.

Lemma Math_round_ge (m e a : Z) :
  e <= 0 -> a * 2 ^ (- e) <= m -> a <= Math_round (Num m e).
Proof.
  intros He Hm. unfold Math_round. cbn [mant expo].
  destruct (0 <=? e) eqn:E.
  - apply Z.leb_le in E. assert (e = 0) by lia. subst e.
    rewrite Z.shiftl_0_r. cbn in Hm. lia.
  - apply Z.leb_gt in E.
    rewrite Z.shiftr_div_pow2, Z.shiftl_mul_pow2 by lia.
    replace (- e + 1) with (1 + - e) by lia.
    rewrite Z.pow_add_r by lia. change (2 ^ 1) with 2.
    pose proof (pow2_pos (- e) ltac:(lia)) as Hp.
    apply Z.div_le_lower_bound; [lia | nia].
Qed.

Lemma Math_round_le (m e a : Z) :
  e <= 0 -> m <= a * 2 ^ (- e) -> Math_round (Num m e) <= a.
Proof.
  intros He Hm. unfold Math_round. cbn [mant expo].
  destruct (0 <=? e) eqn:E.
  - apply Z.leb_le in E. assert (e = 0) by lia. subst e.
    rewrite Z.shiftl_0_r. cbn in Hm. lia.
  - apply Z.leb_gt in E.
    rewrite Z.shiftr_div_pow2, Z.shiftl_mul_pow2 by lia.
    replace (- e + 1) with (1 + - e) by lia.
    rewrite Z.pow_add_r by lia. change (2 ^ 1) with 2.
    pose proof (pow2_pos (- e) ltac:(lia)) as Hp.
    assert ((2 * m + 1 * 2 ^ (- e)) / (2 * 2 ^ (- e)) < a + 1); [|lia].
    apply Z.div_lt_upper_bound; [lia | nia].
Qed.

Lemma bits_below (p n : Z) : 0 <= p < 2 ^ n -> 0 <= n -> bits p <= n.
Proof.
  intros Hp Hn. unfold bits. destruct (p =? 0) eqn:E; [lia|].
  apply Z.eqb_neq in E. rewrite Z.abs_eq by lia.
  assert (Z.log2 p < n); [|lia]. apply Z.log2_lt_pow2; lia.
Qed.

(** A venue factor of at least one does not lower an integral price. *)
Lemma venue_factor_up (a c e : Z) :
  0 <= a -> 0 < e -> 2 ^ e <= c -> a * c < 2 ^ (53 + e) ->
  a <= Math_round (mul (of_Z a) (Num c (- e))).
Proof.
  intros Ha He Hc Hbound. unfold mul, of_Z, round53. cbn [mant expo].
  pose proof (pow2_pos e ltac:(lia)) as Hpe.
  assert (Hp : 0 <= a * c) by nia.
  pose proof (bits_below (a * c) (53 + e) ltac:(lia) ltac:(lia)) as Hbits.
  destruct (bits (a * c) - 53 <=? 0) eqn:E.
  - apply Math_round_ge; [lia|]. replace (- (0 + - e)) with e by lia. nia.
  - apply Z.leb_gt in E. set (k := bits (a * c) - 53) in *.
    apply Math_round_ge; [lia|].
    replace (- (0 + - e + k)) with (e - k) by lia.
    eapply Z.le_trans; [|apply rne_shift_ge; lia].
    apply Z.div_le_lower_bound; [apply pow2_pos; lia|].
    replace (2 ^ k * (a * 2 ^ (e - k))) with (a * (2 ^ (e - k) * 2 ^ k)) by ring.
    rewrite <- Z.pow_add_r by lia. replace (e - k + k) with e by lia. nia.
Qed.

(** A venue factor of at most one does not raise an integral price. *)
Lemma venue_factor_down (a c e : Z) :
  0 <= a -> 0 < e -> 0 <= c <= 2 ^ e -> a * c < 2 ^ (53 + e) ->
  Math_round (mul (of_Z a) (Num c (- e))) <= a.
Proof.
  intros Ha He Hc Hbound. unfold mul, of_Z, round53. cbn [mant expo].
  pose proof (pow2_pos e ltac:(lia)) as Hpe.
  assert (Hp : 0 <= a * c) by nia.
  pose proof (bits_below (a * c) (53 + e) ltac:(lia) ltac:(lia)) as Hbits.
  destruct (bits (a * c) - 53 <=? 0) eqn:E.
  - apply Math_round_le; [lia|]. replace (- (0 + - e)) with e by lia. nia.
  - apply Z.leb_gt in E. set (k := bits (a * c) - 53) in *.
    apply Math_round_le; [lia|].
    replace (- (0 + - e + k)) with (e - k) by lia.
    apply rne_shift_le; [lia|].
    rewrite <- Z.mul_assoc, <- Z.pow_add_r by lia.
    replace (e - k + k) with e by lia. nia.
Qed.

(** The two mocked venues never quote a better price than Binance. *)
Lemma venues_not_better (bid ask : Z) :
  0 <= bid < 2 ^ 52 -> 0 <= ask < 2 ^ 52 ->
  Types.bid (fetchMassiveFX bid ask) <= bid
  /\ Types.bid (fetchCoinGecko bid ask) <= bid
  /\ ask <= Types.ask (fetchMassiveFX bid ask)
  /\ ask <= Types.ask (fetchCoinGecko bid ask).
Proof.
  intros Hb Ha. unfold fetchMassiveFX, fetchCoinGecko. cbn [Types.bid Types.ask].
  unfold c0_9999, c1_0001, c0_9998, c1_0002.
  change (2 ^ 52) with 4503599627370496 in *.
  repeat split.
  - apply (venue_factor_down bid _ 52); lia.
  - apply (venue_factor_down bid _ 51); lia.
  - apply (venue_factor_up ask _ 52); lia.
  - apply (venue_factor_up ask _ 51); lia.
Qed.

(** For non-negative prices below 2^52 the selection returns Binance's
    own quote: the ask as it came for a BUY, the bid as it came for a
    SELL. *)
Lemma getBestQuote_picks_binance (bid ask : Z) (side : Side) :
  0 <= bid < 2 ^ 52 -> 0 <= ask < 2 ^ 52 ->
  exists best,
    getBestQuote bid ask side = Ok best
    /\ bq_price best = match side with BUY => ask | SELL => bid end
    /\ bq_bidPrice best = bid
    /\ bq_askPrice best = ask
    /\ bq_source best = "Binance".
Proof.
  intros Hb Ha.
  destruct (venues_not_better bid ask Hb Ha) as (Hm1 & Hc1 & Hm2 & Hc2).
  unfold getBestQuote. cbn [length Nat.eqb]. unfold sort_by.
  cbn [fold_left insert_by].
  destruct side.
  - assert (E1 : (Types.ask (fetchMassiveFX bid ask)
                 - Types.ask (fetchBinance bid ask) <? 0) = false)
      by (apply Z.ltb_ge; cbn [Types.ask fetchBinance]; lia).
    assert (E2 : (Types.ask (fetchCoinGecko bid ask)
                 - Types.ask (fetchBinance bid ask) <? 0) = false)
      by (apply Z.ltb_ge; cbn [Types.ask fetchBinance]; lia).
    rewrite E1. cbn [insert_by]. rewrite E2.
    eexists. split; [reflexivity|]. cbn. auto.
  - assert (E1 : (Types.bid (fetchBinance bid ask)
                 - Types.bid (fetchMassiveFX bid ask) <? 0) = false)
      by (apply Z.ltb_ge; cbn [Types.bid fetchBinance]; lia).
    assert (E2 : (Types.bid (fetchBinance bid ask)
                 - Types.bid (fetchCoinGecko bid ask) <? 0) = false)
      by (apply Z.ltb_ge; cbn [Types.bid fetchBinance]; lia).
    rewrite E1. cbn [insert_by]. rewrite E2.
    eexists. split; [reflexivity|]. cbn. auto.
Qed.

End SelectionFacts.

(** ** Prices *)

Section PriceFacts.
Import JsNumber Money Types Errors Db BalanceService TradeService QuoteService.
Import Sor PriceService Spec System Scenario.

(** C4: for a supported pair whose Binance bid and ask are
    non-negative and below 2^52, the execution price is the ask exactly as
    Binance gave it for a BUY and the bid exactly as Binance gave it for a
    SELL; no markup, whatever its non-zero value, is added or subtracted.
    The documentation of [getExecutionPrice] and the specification ask for
    the ask plus the markup and the bid minus the markup; [SPREAD_MARKUP] is
    not used. *)
Theorem getExecutionPrice_applies_no_markup env baseCurrency quoteCurrency side
    pair0 ticker :
  findPair (baseCurrency +:+ quoteCurrency) = Some pair0 ->
  fetchBookTicker env (symbol pair0) = Some ticker ->
  let bid := parsePrice (parseFloat env) (bidPrice ticker) in
  let ask := parsePrice (parseFloat env) (askPrice ticker) in
  0 <= bid < 2 ^ 52 ->
  0 <= ask < 2 ^ 52 ->
  getExecutionPrice env baseCurrency quoteCurrency side
  = Ok {| ep_price := match side with BUY => ask | SELL => bid end;
          ep_bidPrice := bid; ep_askPrice := ask |}
  /\ (forall markup, markup <> 0 ->
        match side with BUY => ask | SELL => bid end
        <> marked_up side bid ask markup).
Proof.
  intros Hpair Hfetch bid ask Hbid Hask. split.
  - unfold getExecutionPrice. rewrite Hpair, Hfetch.
    unfold fetched, mbind, result_bind, mret, result_ret.
    fold bid. fold ask.
    destruct (getBestQuote_picks_binance bid ask side Hbid Hask)
      as (best & -> & Hp & Hb & Ha & _).
    rewrite Hp, Hb, Ha. reflexivity.
  - intros markup Hm. unfold marked_up. destruct side; lia.
Qed.

(** Binance at bid 1.17900000 and ask 1.17920000: the quote to buy is
    priced at the ask, the quote to sell at the bid, and [createQuote]
    stores the ask; a markup of 0.1% would have given 1.18037920. *)
Lemma getExecutionPrice_applies_no_markup_witness :
  let env := env_at 1000 "q-1" "b-7" in
  getExecutionPrice env "EUR" "USDT" BUY
  = Ok {| ep_price := 117920000; ep_bidPrice := 117900000;
          ep_askPrice := 117920000 |}
  /\ getExecutionPrice env "EUR" "USDT" SELL
     = Ok {| ep_price := 117900000; ep_bidPrice := 117900000;
             ep_askPrice := 117920000 |}
  /\ q_price <$> (quotes (fst (createQuote env "test-account" "EUR" "USDT" BUY
                                 n100 seeded)) !! "q-1") = Some 117920000
  /\ 117920000 <> marked_up BUY 117900000 117920000 117920.
Proof.
  cbv zeta.
  assert (Hpair : findPair ("EUR" +:+ "USDT")
                  = Some {| symbol := "EURUSDT"; base := "EUR"; quote := "USDT" |})
    by reflexivity.
  assert (Hfetch : fetchBookTicker (env_at 1000 "q-1" "b-7") "EURUSDT"
                   = Some {| bt_symbol := "EURUSDT"; bidPrice := "1.17900000";
                             bidQty := "1"; askPrice := "1.17920000";
                             askQty := "1" |}) by reflexivity.
  assert (Hb : 0 <= 117900000 < 2 ^ 52) by (split; [lia | reflexivity]).
  assert (Ha : 0 <= 117920000 < 2 ^ 52) by (split; [lia | reflexivity]).
  split; [exact (proj1 (getExecutionPrice_applies_no_markup
                          (env_at 1000 "q-1" "b-7") "EUR" "USDT" BUY _ _
                          Hpair Hfetch Hb Ha))|].
  split; [exact (proj1 (getExecutionPrice_applies_no_markup
                          (env_at 1000 "q-1" "b-7") "EUR" "USDT" SELL _ _
                          Hpair Hfetch Hb Ha))|].
  split; [vm_compute; reflexivity|].
  apply (proj2 (getExecutionPrice_applies_no_markup
                  (env_at 1000 "q-1" "b-7") "EUR" "USDT" BUY _ _
                  Hpair Hfetch Hb Ha) 117920). lia.
Defined.

Lemma executeTrade_throw_code env accountId baseCurrency quoteCurrency side
    baseAmount price type quoteId st st' e :
  executeTrade env accountId baseCurrency quoteCurrency side baseAmount
    price type quoteId st = (st', Throw e) ->
  e = insufficientBalance \/ e = SQLiteError.
Proof.
  unfold executeTrade, executeTradeTx, transaction, executeTradeTx_body.
  unfold mbind, M_bind, bind. intros H.
  destruct (debit _ _ _ _ st) as [st1 [[]|e1]] eqn:Hd.
  2:{ apply debit_throw_inv in Hd as [_ ->]. inversion H. left. reflexivity. }
  unfold credit in H.
  destruct (balances st1 !! _) as [row|].
  - destruct (truthy quoteId); cbn in H; unfold insert_trade in H;
      destruct (existsb _ _); cbn in H;
      try (inversion H; right; reflexivity);
      destruct (bool_decide _); cbn in H; inversion H; right; reflexivity.
  - destruct (existsb _ (map_to_list _)); cbn in H;
      [inversion H; right; reflexivity|].
    destruct (bool_decide (accountId ∈ accounts st1)); cbn in H;
      [|inversion H; right; reflexivity].
    destruct (truthy quoteId); cbn in H; unfold insert_trade in H;
      destruct (existsb _ _); cbn in H;
      try (inversion H; right; reflexivity);
      destruct (bool_decide _); cbn in H; inversion H; right; reflexivity.
Qed.

(** A configured pair is accepted in both orientations, and both lead
    to the same symbol of the feed. *)
Lemma reversed_pair_lookup p :
  In p SUPPORTED_PAIRS ->
  pair_supported (quote p) (base p) = true
  /\ findPair (quote p +:+ base p) = Some p
  /\ findPair (base p +:+ quote p) = Some p.
Proof.
  intros [<-|[<-|[]]]; repeat split; reflexivity.
Qed.

(** C10: for a configured pair, a market trade asked in the reversed
    orientation is not rejected as an unsupported pair, its price lookup
    gives what the lookup for the configured orientation gives, and, when
    the trade commits, the trade row carries that very price and a quote
    amount that is the given amount times that price. *)
Theorem reversed_pair_same_price env accountId p side amount st :
  In p SUPPORTED_PAIRS ->
  getMarketPrice env (quote p) (base p) = getMarketPrice env (base p) (quote p)
  /\ (forall st',
        executeMarketTrade env accountId (quote p) (base p) side amount st
        <> (st', Throw pairNotSupported))
  /\ (forall st' resp,
        executeMarketTrade env accountId (quote p) (base p) side amount st
        = (st', Ok resp) ->
        exists price t,
          getMarketPrice env (base p) (quote p) = Ok price
          /\ trades st' = trades st ++ [t]
          /\ t_baseCurrency t = quote p /\ t_quoteCurrency t = base p
          /\ t_price t = price
          /\ t_baseAmount t = toScaled amount
          /\ t_quoteAmount t = scaledMultiply (toScaled amount) price).
Proof.
  intros Hp. destruct (reversed_pair_lookup p Hp) as (Hsup & Hrev & Hfwd).
  assert (Hsame : getMarketPrice env (quote p) (base p)
                  = getMarketPrice env (base p) (quote p)).
  { unfold getMarketPrice. rewrite Hrev, Hfwd. reflexivity. }
  split; [exact Hsame|].
  unfold executeMarketTrade, mbind, M_bind, bind, lift.
  rewrite Hsup. cbn [negb]. rewrite Hsame.
  destruct (getMarketPrice env (base p) (quote p)) as [price|e] eqn:Hprice.
  - split.
    + intros st' H. apply executeTrade_throw_code in H as [H|H]; discriminate H.
    + intros st' resp H. exists price.
      apply executeTrade_ok in H.
      apply executeTradeTx_ok in H as (st1 & st2 & Hd & Hc & ->).
      apply debit_ok_inv in Hd as (row & _ & _ & ->).
      apply credit_ok_inv in Hc as (rowc & -> & _).
      eexists. split; [reflexivity|]. split; [reflexivity|]. cbn. auto.
  - split.
    + intros st' H. inversion H; subst.
      unfold getMarketPrice in Hprice. rewrite Hfwd in Hprice.
      destruct (fetchTickerPrice env (symbol p)); cbn in Hprice; discriminate.
    + intros st' resp H. discriminate.
Qed.

(** A market SELL asked as USDT/BTC is priced at the BTCUSDT ticker. *)
Lemma reversed_pair_same_price_witness :
  exists st' resp,
    In {| symbol := "BTCUSDT"; base := "BTC"; quote := "USDT" |} SUPPORTED_PAIRS
    /\ executeMarketTrade (env_at 2000 "t-1" "b-9") "test-account" "USDT" "BTC"
         SELL n5 seeded = (st', Ok resp)
    /\ getMarketPrice (env_at 2000 "t-1" "b-9") "USDT" "BTC" = Ok 6704501000001
    /\ getMarketPrice (env_at 2000 "t-1" "b-9") "BTC" "USDT" = Ok 6704501000001
    /\ map t_price (trades st') = [6704501000001].
Proof.
  eexists _, _.
  assert (Hin : In {| symbol := "BTCUSDT"; base := "BTC"; quote := "USDT" |}
                  SUPPORTED_PAIRS) by (right; left; reflexivity).
  split; [exact Hin|].
  split; [vm_compute; reflexivity|].
  destruct (reversed_pair_same_price (env_at 2000 "t-1" "b-9") "test-account"
              _ SELL n5 seeded Hin) as (Hsame & _ & _).
  cbn [base quote] in Hsame.
  split; [rewrite Hsame; vm_compute; reflexivity|].
  split; vm_compute; reflexivity.
Defined.

End PriceFacts.

(** ** Scaled money: division, unit and whole amounts *)

Section MoneyRoundTrips.
Import JsNumber Money.

Lemma SCALE_pos : 0 < SCALE.
Proof. unfold SCALE. lia. Qed.

Lemma scaledDivide_safe (a b : Z) :
  b <> 0 -> Z.abs (Z.quot (a * SCALE) b) < two53 ->
  scaledDivide a b = inr (Z.quot (a * SCALE) b).
Proof.
  intros Hb Hsafe. unfold scaledDivide.
  destruct (b =? 0) eqn:E; [apply Z.eqb_eq in E; contradiction|].
  rewrite Number_of_BigInt_safe by exact Hsafe. reflexivity.
Qed.

(** [scaledDivide] throws exactly on a zero divisor; otherwise, wherever
    the quotient of [a * 10^8] by [b] truncated towards zero is a safe
    integer, it returns that quotient. *)
Theorem scaledDivide_truncates (a b : Z) :
  (scaledDivide a b = inl Division_by_zero <-> b = 0)
  /\ (b <> 0 -> Z.abs (Z.quot (a * SCALE) b) < two53 ->
      scaledDivide a b = inr (Z.quot (a * SCALE) b)).
Proof.
  unfold scaledDivide. split.
  - destruct (b =? 0) eqn:E.
    + apply Z.eqb_eq in E. tauto.
    + apply Z.eqb_neq in E. split; [discriminate | contradiction].
  - intros Hb Hsafe. fold (scaledDivide a b). apply scaledDivide_safe; assumption.
Qed.

(** Dividing a non-negative amount by a positive rate and multiplying the
    result by the same rate never gives more than the amount, and loses at
    most [b / 10^8 + 1] units of the last digit. *)
Theorem scaledDivide_then_scaledMultiply (a b : Z) :
  0 <= a < two53 ->
  0 < b ->
  a * SCALE / b < two53 ->
  exists q,
    scaledDivide a b = inr q
    /\ q = a * SCALE / b
    /\ a - (b / SCALE + 1) <= scaledMultiply q b <= a.
Proof.
  intros Ha Hb Hsafe. pose proof SCALE_pos as HS.
  assert (Hq0 : 0 <= a * SCALE / b) by (apply Z.div_pos; nia).
  assert (Hquot : Z.quot (a * SCALE) b = a * SCALE / b)
    by (apply Z.quot_div_nonneg; nia).
  exists (a * SCALE / b). split.
  { rewrite <- Hquot. apply scaledDivide_safe; [lia | rewrite Hquot; lia]. }
  split; [reflexivity|].
  set (q := a * SCALE / b) in *.
  assert (Hqb : q * b <= a * SCALE).
  { unfold q. rewrite Z.mul_comm. apply Z.mul_div_le. exact Hb. }
  assert (Hqb' : a * SCALE < q * b + b).
  { unfold q. pose proof (Z.div_mod (a * SCALE) b ltac:(lia)).
    pose proof (Z.mod_pos_bound (a * SCALE) b Hb). nia. }
  assert (Hm0 : 0 <= q * b) by nia.
  assert (Hquot2 : Z.quot (q * b) SCALE = q * b / SCALE)
    by (apply Z.quot_div_nonneg; lia).
  assert (Hup : q * b / SCALE <= a).
  { apply Z.div_le_upper_bound; [exact HS | nia]. }
  assert (Hlo : 0 <= q * b / SCALE) by (apply Z.div_pos; lia).
  rewrite scaledMultiply_truncates by (rewrite Hquot2; lia).
  rewrite Hquot2. split; [|exact Hup].
  pose proof (Z.div_mod (q * b) SCALE ltac:(lia)).
  pose proof (Z.mod_pos_bound (q * b) SCALE HS).
  pose proof (Z.div_mod b SCALE ltac:(lia)).
  pose proof (Z.mod_pos_bound b SCALE HS).
  nia.
Qed.

(** 117.92 USDT divided by the rate 1.17920000 and multiplied back. *)
Lemma scaledDivide_then_scaledMultiply_witness :
  exists q,
    scaledDivide 11792000000 117920000 = inr q
    /\ q = 10000000000
    /\ scaledMultiply q 117920000 = 11792000000.
Proof.
  destruct (scaledDivide_then_scaledMultiply 11792000000 117920000)
    as (q & Hq & Hv & _).
  - unfold two53. lia.
  - lia.
  - vm_compute. reflexivity.
  - exists q. split; [exact Hq|]. split; [rewrite Hv; reflexivity|].
    rewrite Hv. vm_compute. reflexivity.
Defined.

(** The scaled one, [10^8], is neutral: multiplying or dividing a safe
    integer amount by it returns the amount. *)
Theorem scaled_one_neutral (a : Z) :
  Z.abs a < two53 ->
  scaledMultiply a SCALE = a /\ scaledDivide a SCALE = inr a.
Proof.
  intros Ha. pose proof SCALE_pos as HS.
  assert (Hq : Z.quot (a * SCALE) SCALE = a) by (apply Z.quot_mul; lia).
  split.
  - rewrite scaledMultiply_truncates; rewrite Hq; [reflexivity | exact Ha].
  - rewrite scaledDivide_safe; [rewrite Hq; reflexivity | lia | rewrite Hq; exact Ha].
Qed.

Lemma scaled_one_neutral_witness :
  scaledMultiply (-150000000) SCALE = -150000000
  /\ scaledDivide (-150000000) SCALE = inr (-150000000).
Proof. apply (scaled_one_neutral (-150000000)). unfold two53. lia. Defined.

(** A whole number of units goes through [toScaled] and [fromScaled]
    unharmed, a negative one included: [toScaled] gives the number times
    [10^8] and [fromScaled] prints the number with eight zeros. *)
Theorem whole_amount_round_trip (n : Z) :
  Z.abs (n * SCALE) < two53 ->
  toScaled (of_Z n) = n * SCALE
  /\ fromScaled (toScaled (of_Z n)) = toString n +:+ ".00000000".
Proof.
  intros Hn. pose proof SCALE_pos as HS.
  assert (Hto : toScaled (of_Z n) = n * SCALE).
  { unfold toScaled, mul, of_Z, round53. cbn [mant expo].
    pose proof (bits_safe (n * SCALE) Hn).
    destruct (bits (n * SCALE) - 53 <=? 0) eqn:E; [|apply Z.leb_gt in E; lia].
    unfold Math_round. cbn [mant expo]. cbn [Z.add Z.leb Z.compare].
    apply Z.shiftl_0_r. }
  split; [exact Hto|].
  rewrite Hto. unfold fromScaled.
  rewrite Math_floor_div_SCALE by exact Hn.
  rewrite Z.div_mul by lia. rewrite Z.rem_mul by lia.
  reflexivity.
Qed.

Lemma whole_amount_round_trip_witness :
  toScaled (of_Z (-3)) = -300000000
  /\ fromScaled (toScaled (of_Z (-3))) = "-3.00000000".
Proof.
  destruct (whole_amount_round_trip (-3)) as [H1 H2].
  - vm_compute. reflexivity.
  - split; [exact H1 | rewrite H2; vm_compute; reflexivity].
Defined.

End MoneyRoundTrips.

(** ** Balance ledger: credit and the balance listing *)

Section BalanceFacts.
Import JsNumber Money Types Errors Db BalanceService Scenario.

(** [credit] is an upsert. On an existing row it always succeeds and adds
    [amount] to it; without a row it inserts one that holds [amount],
    provided the account exists and the fresh row id is unused, and throws
    the store's constraint error, changing nothing, otherwise. A successful
    credit raises the balance by exactly [amount] and touches no other
    balance, quote or trade. *)
Theorem credit_upserts env accountId currency amount st :
  let fresh_ok :=
    existsb (fun kv => String.eqb (b_id (snd kv)) (balanceUUID env))
      (map_to_list (balances st)) = false
    /\ accountId ∈ accounts st in
  ((is_Some (balances st !! (accountId, currency)) \/ fresh_ok) ->
     exists st', credit env accountId currency amount st = (st', Ok tt)
       /\ getBalance accountId currency st'
          = getBalance accountId currency st + amount
       /\ (forall a c, (a, c) <> (accountId, currency) ->
             balances st' !! (a, c) = balances st !! (a, c))
       /\ quotes st' = quotes st /\ trades st' = trades st
       /\ accounts st' = accounts st)
  /\ (~ (is_Some (balances st !! (accountId, currency)) \/ fresh_ok) ->
        credit env accountId currency amount st = (st, Throw SQLiteError)).
Proof.
  cbv zeta. split.
  - intros Hok.
    assert (exists row,
              credit env accountId currency amount st
              = (set_balances (insert (accountId, currency) row) st, Ok tt)
              /\ b_amount row = getBalance accountId currency st + amount)
      as (row & Hc & Hamt).
    { unfold credit, getBalance.
      destruct (balances st !! (accountId, currency)) as [row|] eqn:Hrow.
      - eexists. split; [reflexivity|]. reflexivity.
      - destruct Hok as [[row Hsome]|[Hfresh Hacc]]; [discriminate|].
        rewrite Hfresh. rewrite bool_decide_eq_true_2 by exact Hacc.
        eexists. split; [reflexivity|]. cbn. lia. }
    eexists. split; [exact Hc|]. split.
    + rewrite getBalance_set_balances_insert.
      destruct (decide _); [exact Hamt | congruence].
    + split; [|auto]. intros a c Hne. cbn [set_balances balances].
      apply lookup_insert_ne. congruence.
  - intros Hno. unfold credit.
    destruct (balances st !! (accountId, currency)) as [row|] eqn:Hrow.
    { exfalso. apply Hno. left. eexists. reflexivity. }
    destruct (existsb _ _) eqn:Hfresh; [reflexivity|].
    destruct (bool_decide (accountId ∈ accounts st)) eqn:Hacc; [|reflexivity].
    exfalso. apply Hno. right. split; [reflexivity|].
    apply bool_decide_eq_true in Hacc. exact Hacc.
Qed.

(** A debit followed by a credit of the same amount on the same balance
    always succeeds and gives every balance the amount it had before the
    debit. *)
Theorem debit_then_credit_restores env env' accountId currency amount st st1 :
  debit env accountId currency amount st = (st1, Ok tt) ->
  exists st2,
    credit env' accountId currency amount st1 = (st2, Ok tt)
    /\ forall a c, getBalance a c st2 = getBalance a c st.
Proof.
  intros Hd. apply debit_ok_inv in Hd as (row & Hrow & Hle & ->).
  eexists. split.
  - unfold credit. cbn [set_balances balances].
    rewrite lookup_insert_eq. reflexivity.
  - intros a c. rewrite !getBalance_set_balances_insert.
    destruct (decide ((accountId, currency) = (a, c))) as [E|E].
    + inversion E; subst. cbn [b_amount]. unfold getBalance. rewrite Hrow. lia.
    + reflexivity.
Qed.

Lemma debit_then_credit_restores_witness :
  exists st1 st2,
    debit (env_at 2000 "t-1" "b-8") "test-account" "EUR" 10000000000 seeded
    = (st1, Ok tt)
    /\ getBalance "test-account" "EUR" st1 = 490000000000
    /\ credit (env_at 3000 "t-2" "b-9") "test-account" "EUR" 10000000000 st1
       = (st2, Ok tt)
    /\ getBalance "test-account" "EUR" st2 = 500000000000.
Proof.
  eexists.
  assert (Hd : debit (env_at 2000 "t-1" "b-8") "test-account" "EUR" 10000000000
                 seeded
               = (set_balances
                    (insert ("test-account", "EUR")
                       {| b_id := "b2"; b_amount := 490000000000;
                          b_updatedAt := 2000 |}) seeded, Ok tt))
    by (vm_compute; reflexivity).
  destruct (debit_then_credit_restores _ (env_at 3000 "t-2" "b-9") _ _ _ _ _ Hd)
    as (st2 & Hc & Hb).
  exists st2. split; [exact Hd|].
  split; [vm_compute; reflexivity|]. split; [exact Hc|].
  rewrite Hb. vm_compute. reflexivity.
Defined.

(** [getBalances] lists exactly the balance rows of the account, each
    with its amount rendered by [fromScaled], one entry per currency;
    a currency without a row is not listed, and no row of another account
    is. *)
Theorem getBalances_lists_rows accountId st :
  (forall c s,
     {| br_currency := c; br_amount := s |} ∈ getBalances accountId st
     <-> exists row, balances st !! (accountId, c) = Some row
                     /\ s = fromScaled (b_amount row))
  /\ NoDup (br_currency <$> getBalances accountId st).
Proof.
  unfold getBalances. split.
  - intros c s. rewrite list_elem_of_fmap. split.
    + intros ([[a c'] row] & Heq & Hin). cbn in Heq. inversion Heq; subst.
      apply list_elem_of_filter in Hin as [Ha Hin]. cbn in Ha. subst a.
      apply elem_of_map_to_list in Hin. exists row. split; [exact Hin | reflexivity].
    + intros (row & Hrow & ->). exists ((accountId, c), row). split; [reflexivity|].
      apply list_elem_of_filter. split; [reflexivity|].
      apply elem_of_map_to_list. exact Hrow.
  - rewrite <- list_fmap_compose.
    apply NoDup_fmap_2_strong.
    + intros [[a c] row] [[a' c'] row'] Hin Hin' Heq. cbn in Heq. subst c'.
      apply list_elem_of_filter in Hin as [Ha Hin].
      apply list_elem_of_filter in Hin' as [Ha' Hin']. cbn in Ha, Ha'. subst a a'.
      apply elem_of_map_to_list in Hin. apply elem_of_map_to_list in Hin'.
      congruence.
    + apply NoDup_filter. apply NoDup_map_to_list.
Qed.

End BalanceFacts.

(** ** Trades: failure, retrieval and history *)

Section TradeFacts.
Import JsNumber Money Types Errors Db BalanceService TradeService QuoteService.
Import PriceService System Scenario.


Lemma executeMarketTrade_ok_inv env accountId baseCurrency quoteCurrency side
    amount st st' resp :
  executeMarketTrade env accountId baseCurrency quoteCurrency side amount st
  = (st', Ok resp) ->
  exists price,
    getMarketPrice env baseCurrency quoteCurrency = Ok price
    /\ executeTrade env accountId baseCurrency quoteCurrency side
         (toScaled amount) price MARKET None st = (st', Ok resp).
Proof.
  unfold executeMarketTrade, mbind, M_bind, bind, lift. intros H.
  destruct (negb (pair_supported baseCurrency quoteCurrency)); [discriminate|].
  destruct (getMarketPrice env baseCurrency quoteCurrency) as [price|e];
    [|discriminate].
  exists price. split; [reflexivity | exact H].
Qed.




Lemma insert_trade_ok_fresh row st st' :
  insert_trade row st = (st', Ok tt) ->
  existsb (fun t => String.eqb (t_id t) (t_id row)) (trades st) = false.
Proof.
  unfold insert_trade. intros H.
  destruct (existsb _ _); [discriminate | reflexivity].
Qed.

(** A committed trade was inserted under an identifier that no trade
    had. *)
Lemma executeTrade_ok_fresh env accountId baseCurrency quoteCurrency side
    baseAmount price type quoteId st st' resp :
  executeTrade env accountId baseCurrency quoteCurrency side baseAmount
    price type quoteId st = (st', Ok resp) ->
  existsb (fun t => String.eqb (t_id t) (randomUUID env)) (trades st) = false.
Proof.
  intros H. apply executeTrade_ok in H.
  unfold executeTradeTx, transaction, executeTradeTx_body in H.
  unfold mbind, M_bind, bind in H.
  destruct (debit _ _ _ _ st) as [st1 [[]|e1]] eqn:Hd; [|discriminate].
  destruct (credit _ _ _ _ st1) as [st2 [[]|e2]] eqn:Hc; [|discriminate].
  apply debit_ok_inv in Hd as (row & _ & _ & ->).
  apply credit_ok_inv in Hc as (rowc & -> & _).
  destruct (truthy quoteId) as [id|]; cbn in H.
  - destruct (insert_trade _ _) as [st4 [[]|e4]] eqn:Hi; [|discriminate].
    apply insert_trade_ok_fresh in Hi. exact Hi.
  - destruct (insert_trade _ _) as [st4 [[]|e4]] eqn:Hi; [|discriminate].
    apply insert_trade_ok_fresh in Hi. exact Hi.
Qed.

Lemma find_app_fresh {A} (f : A -> bool) (l : list A) (x : A) :
  existsb f l = false -> List.find f (l ++ [x]) = if f x then Some x else None.
Proof.
  induction l as [|y l IH]; intros H; [reflexivity|].
  cbn in H. apply orb_false_iff in H as [Hy Hl].
  cbn. rewrite Hy. apply IH. exact Hl.
Qed.

(** *** The order of the trade history *)

Lemma insert_by_perm {A} (cmp : A -> A -> Z) (x : A) (l : list A) :
  Sor.insert_by cmp x l ≡ₚ x :: l.
Proof.
  induction l as [|y l IH]; [reflexivity|].
  cbn. destruct (cmp x y <? 0); [reflexivity|].
  rewrite IH. apply Permutation_swap.
Qed.

Lemma sort_by_perm {A} (cmp : A -> A -> Z) (l : list A) :
  Sor.sort_by cmp l ≡ₚ l.
Proof.
  unfold Sor.sort_by.
  assert (forall acc, fold_left (fun acc x => Sor.insert_by cmp x acc) l acc
                      ≡ₚ l ++ acc) as H.
  { induction l as [|x l IH]; intros acc; [reflexivity|].
    cbn. rewrite IH, insert_by_perm. symmetry. apply Permutation_middle. }
  rewrite H. rewrite app_nil_r. reflexivity.
Qed.

Lemma insert_by_desc {A} (key : A -> Z) (x : A) (l : list A) :
  StronglySorted (fun a b => key b <= key a) l ->
  StronglySorted (fun a b => key b <= key a)
    (Sor.insert_by (fun a b => key b - key a) x l).
Proof.
  induction 1 as [|y l Hs IH Hy]; cbn.
  - constructor; constructor.
  - destruct (key y - key x <? 0) eqn:E.
    + apply Z.ltb_lt in E. constructor; [constructor; assumption|].
      constructor; [lia|].
      eapply Forall_impl; [exact Hy|]. cbn. intros z Hz. lia.
    + apply Z.ltb_ge in E. constructor; [exact IH|].
      rewrite insert_by_perm. constructor; [lia | exact Hy].
Qed.

Lemma sort_by_desc {A} (key : A -> Z) (l : list A) :
  StronglySorted (fun a b => key b <= key a)
    (Sor.sort_by (fun a b => key b - key a) l).
Proof.
  unfold Sor.sort_by.
  assert (forall acc,
            StronglySorted (fun a b => key b <= key a) acc ->
            StronglySorted (fun a b => key b <= key a)
              (fold_left (fun acc x => Sor.insert_by (fun a b => key b - key a) x acc)
                 l acc)) as H.
  { induction l as [|x l IH]; intros acc Hacc; [exact Hacc|].
    cbn. apply IH. apply insert_by_desc. exact Hacc. }
  apply H. constructor.
Qed.

Lemma StronglySorted_fmap {A B} (f : A -> B) (R : A -> A -> Prop)
    (R' : B -> B -> Prop) (l : list A) :
  (forall x y, R x y -> R' (f x) (f y)) ->
  StronglySorted R l -> StronglySorted R' (f <$> l).
Proof.
  intros HR. induction 1 as [|x l Hs IH Hx]; cbn; constructor; [exact IH|].
  apply Forall_fmap. eapply Forall_impl; [exact Hx|]. intros y Hy. apply HR. exact Hy.
Qed.

Lemma getTradeHistory_elem accountId st resp :
  resp ∈ getTradeHistory accountId st
  <-> exists row, row ∈ trades st /\ t_accountId row = accountId
                  /\ resp = trade_response row.
Proof.
  unfold getTradeHistory. rewrite list_elem_of_fmap. split.
  - intros (row & -> & Hin). rewrite sort_by_perm in Hin.
    apply list_elem_of_filter in Hin as [Hacc Hin]. exists row. auto.
  - intros (row & Hin & Hacc & ->). exists row. split; [reflexivity|].
    rewrite sort_by_perm. apply list_elem_of_filter. auto.
Qed.

(** [getTradeHistory] returns the trades of the account and no others,
    each once and rendered as [getTrade] renders it, the latest executed
    first. *)
Theorem getTradeHistory_sorted_complete accountId st :
  (forall resp,
     resp ∈ getTradeHistory accountId st
     <-> exists row, row ∈ trades st /\ t_accountId row = accountId
                     /\ resp = trade_response row)
  /\ length (getTradeHistory accountId st)
     = length (filter (fun t => t_accountId t = accountId) (trades st))
  /\ StronglySorted (fun x y => tr_executedAt y <= tr_executedAt x)
       (getTradeHistory accountId st).
Proof.
  split; [intros resp; apply getTradeHistory_elem|]. split.
  - unfold getTradeHistory. rewrite length_fmap.
    apply Permutation_length. apply sort_by_perm.
  - unfold getTradeHistory.
    apply StronglySorted_fmap with (R := fun a b => t_executedAt b <= t_executedAt a).
    + intros x y Hxy. exact Hxy.
    + apply sort_by_desc.
Qed.

(** *** Reading a trade back *)

Lemma executeTrade_retrievable env accountId baseCurrency quoteCurrency side
    baseAmount price type quoteId st st' resp :
  executeTrade env accountId baseCurrency quoteCurrency side baseAmount
    price type quoteId st = (st', Ok resp) ->
  getTrade accountId (tr_id resp) st' = Ok resp
  /\ resp ∈ getTradeHistory accountId st'
  /\ forall other, other <> accountId ->
       getTrade other (tr_id resp) st' = Throw notFound.
Proof.
  intros H. pose proof (executeTrade_ok_fresh _ _ _ _ _ _ _ _ _ _ _ _ H) as Hfresh.
  assert (Hresp : resp
            = trade_response
                {| t_id := randomUUID env; t_accountId := accountId;
                   t_quoteId := quoteId; t_type := type;
                   t_baseCurrency := baseCurrency;
                   t_quoteCurrency := quoteCurrency; t_side := side;
                   t_baseAmount := baseAmount;
                   t_quoteAmount := scaledMultiply baseAmount price;
                   t_price := price; t_executedAt := now env;
                   t_createdAt := now env |}).
  { unfold executeTrade, mbind, M_bind, bind in H.
    destruct (executeTradeTx _ _ _ _ _ _ _ _ _ _ _ _ st) as [st1 [[]|e1]];
      [|discriminate].
    inversion H. reflexivity. }
  apply executeTrade_ok in H.
  apply executeTradeTx_ok in H as (st1 & st2 & Hd & Hc & ->).
  apply debit_ok_inv in Hd as (row & _ & _ & ->).
  apply credit_ok_inv in Hc as (rowc & -> & _).
  set (t := {| t_id := randomUUID env; t_accountId := accountId;
               t_quoteId := quoteId; t_type := type;
               t_baseCurrency := baseCurrency; t_quoteCurrency := quoteCurrency;
               t_side := side; t_baseAmount := baseAmount;
               t_quoteAmount := scaledMultiply baseAmount price;
               t_price := price; t_executedAt := now env;
               t_createdAt := now env |}) in *.
  assert (Hid : tr_id resp = randomUUID env) by (rewrite Hresp; reflexivity).
  assert (Htrades : forall s,
            trades (set_trades (fun ts => ts ++ [t])
                      (match truthy quoteId with
                       | Some id => set_quotes (alter (with_status EXECUTED) id) s
                       | None => s
                       end)) = trades s ++ [t])
    by (intros s; destruct (truthy quoteId); reflexivity).
  assert (Hfind : forall other,
            getTrade other (tr_id resp)
              (set_trades (fun ts => ts ++ [t])
                 (match truthy quoteId with
                  | Some id =>
                      set_quotes (alter (with_status EXECUTED) id)
                        (set_balances (insert (accountId, creditCurrency side
                                                 baseCurrency quoteCurrency) rowc)
                           (set_balances
                              (insert (accountId, debitCurrency side baseCurrency
                                         quoteCurrency)
                                 {| b_id := b_id row;
                                    b_amount := b_amount row
                                                - debitAmount side baseAmount
                                                    (scaledMultiply baseAmount price);
                                    b_updatedAt := now env |}) st))
                  | None =>
                      set_balances (insert (accountId, creditCurrency side
                                              baseCurrency quoteCurrency) rowc)
                        (set_balances
                           (insert (accountId, debitCurrency side baseCurrency
                                      quoteCurrency)
                              {| b_id := b_id row;
                                 b_amount := b_amount row
                                             - debitAmount side baseAmount
                                                 (scaledMultiply baseAmount price);
                                 b_updatedAt := now env |}) st)
                  end))
            = if negb (String.eqb accountId other) then Throw notFound
              else Ok (trade_response t)).
  { intros other. unfold getTrade. rewrite Htrades. cbn [set_balances trades].
    rewrite Hid. rewrite find_app_fresh by exact Hfresh.
    cbn [t_id t]. rewrite String.eqb_refl. reflexivity. }
  split; [|split].
  - rewrite Hfind, String.eqb_refl. cbn. rewrite Hresp. reflexivity.
  - apply getTradeHistory_elem. exists t. split; [|split; [reflexivity | exact Hresp]].
    rewrite Htrades. apply elem_of_app. right. left.
  - intros other Hne. rewrite Hfind.
    destruct (String.eqb accountId other) eqn:E; [|reflexivity].
    apply String.eqb_eq in E. congruence.
Qed.

(** A trade that was executed, as a market order or from a quote, can be
    read back: [getTrade] with the identifier of the response returns the
    very response the execution returned, the trade history of the account
    lists it, and for every other account it is NOT_FOUND. *)
Theorem executed_trade_retrievable env accountId st st' resp :
  (exists baseCurrency quoteCurrency side amount,
     executeMarketTrade env accountId baseCurrency quoteCurrency side amount st
     = (st', Ok resp))
  \/ (exists quoteId seen,
        executeRfqTrade env accountId quoteId seen st = (st', Ok resp)) ->
  getTrade accountId (tr_id resp) st' = Ok resp
  /\ resp ∈ getTradeHistory accountId st'
  /\ forall other, other <> accountId ->
       getTrade other (tr_id resp) st' = Throw notFound.
Proof.
  intros [(b & q & side & amount & H)|(quoteId & seen & H)].
  - apply executeMarketTrade_ok_inv in H as (price & _ & H).
    eapply executeTrade_retrievable. exact H.
  - apply executeRfqTrade_ok_inv in H as (q & _ & _ & _ & _ & H).
    eapply executeTrade_retrievable. exact H.
Qed.

(** The quote of the scenario executed at 2000. *)
Lemma executed_trade_retrievable_witness :
  let r := executeRfqTrade (env_at 2000 "t-1" "b-9") "test-account" "q-1"
             quoted quoted in
  exists resp,
    snd r = Ok resp
    /\ tr_id resp = "t-1"
    /\ getTrade "test-account" "t-1" (fst r) = Ok resp
    /\ getTradeHistory "test-account" (fst r) = [resp]
    /\ getTrade "someone-else" "t-1" (fst r) = Throw notFound.
Proof.
  cbv zeta.
  set (r := executeRfqTrade (env_at 2000 "t-1" "b-9") "test-account" "q-1"
              quoted quoted).
  set (resp := {| tr_id := "t-1"; tr_type := RFQ; tr_baseCurrency := "EUR";
                  tr_quoteCurrency := "USDT"; tr_side := BUY;
                  tr_baseAmount := "100.00000000";
                  tr_quoteAmount := "117.92000000"; tr_price := "1.17920000";
                  tr_executedAt := 2000; tr_createdAt := 2000 |}).
  assert (Hs : snd r = Ok resp) by (vm_compute; reflexivity).
  assert (Hx : executeRfqTrade (env_at 2000 "t-1" "b-9") "test-account" "q-1"
                 quoted quoted = (fst r, Ok resp))
    by (rewrite <- Hs; apply surjective_pairing).
  destruct (executed_trade_retrievable _ _ _ _ _
              (or_intror (ex_intro _ "q-1" (ex_intro _ quoted Hx))))
    as (Hget & _ & Hother).
  exists resp. split; [exact Hs|]. split; [reflexivity|].
  split; [exact Hget|]. split; [vm_compute; reflexivity|].
  apply (Hother "someone-else"). discriminate.
Defined.



End TradeFacts.

(** ** Quotes: creation and reading back *)

Section QuoteFacts.
Import JsNumber Money Types Errors Db BalanceService TradeService QuoteService.
Import PriceService System Scenario.

Lemma createQuote_ok_inv env accountId baseCurrency quoteCurrency side amount
    st st' resp :
  createQuote env accountId baseCurrency quoteCurrency side amount st
  = (st', Ok resp) ->
  exists ep,
    getExecutionPrice env baseCurrency quoteCurrency side = Ok ep
    /\ quotes st !! randomUUID env = None
    /\ st' = set_quotes
               (insert (randomUUID env)
                  {| q_accountId := accountId; q_baseCurrency := baseCurrency;
                     q_quoteCurrency := quoteCurrency; q_side := side;
                     q_baseAmount := toScaled amount;
                     q_quoteAmount := scaledMultiply (toScaled amount) (ep_price ep);
                     q_price := ep_price ep;
                     q_expiresAt := now env + QUOTE_TTL_MS;
                     q_status := OPEN; q_createdAt := now env |}) st
    /\ resp = {| qr_id := randomUUID env; qr_baseCurrency := baseCurrency;
                 qr_quoteCurrency := quoteCurrency; qr_side := side;
                 qr_baseAmount := fromScaled (toScaled amount);
                 qr_quoteAmount :=
                   fromScaled (scaledMultiply (toScaled amount) (ep_price ep));
                 qr_price := fromScaled (ep_price ep);
                 qr_expiresAt := now env + QUOTE_TTL_MS;
                 qr_status := OPEN; qr_createdAt := now env |}.
Proof.
  unfold createQuote, validatePair, mbind, M_bind, bind, lift. intros H.
  destruct (negb (pair_supported baseCurrency quoteCurrency)); cbn in H;
    [discriminate|].
  destruct (getExecutionPrice env baseCurrency quoteCurrency side) as [ep|e];
    cbn in H; [|discriminate].
  unfold insert_quote in H.
  destruct (quotes st !! randomUUID env) eqn:Hid; cbn in H; [discriminate|].
  destruct (bool_decide _); cbn in H; [|discriminate].
  inversion H; subst. exists ep. auto.
Qed.

(** A quote that was created can be read back. While the clock has not
    passed [expiresAt], which is 30 seconds after the creation, [getQuote]
    returns the very response [createQuote] returned and writes nothing;
    afterwards it returns it with the status EXPIRED and marks the row. For
    every other account the quote is NOT_FOUND, and nothing is written. *)
Theorem createQuote_then_getQuote env accountId baseCurrency quoteCurrency side
    amount st st1 resp :
  createQuote env accountId baseCurrency quoteCurrency side amount st
  = (st1, Ok resp) ->
  qr_status resp = OPEN
  /\ qr_expiresAt resp = now env + 30000
  /\ forall env' st',
       (now env' <= qr_expiresAt resp ->
          getQuote env' accountId (qr_id resp) st1 st' = (st', Ok resp))
       /\ (qr_expiresAt resp < now env' ->
             getQuote env' accountId (qr_id resp) st1 st'
             = (set_quotes (alter (with_status EXPIRED) (qr_id resp)) st',
                Ok {| qr_id := qr_id resp;
                      qr_baseCurrency := qr_baseCurrency resp;
                      qr_quoteCurrency := qr_quoteCurrency resp;
                      qr_side := qr_side resp;
                      qr_baseAmount := qr_baseAmount resp;
                      qr_quoteAmount := qr_quoteAmount resp;
                      qr_price := qr_price resp;
                      qr_expiresAt := qr_expiresAt resp;
                      qr_status := EXPIRED;
                      qr_createdAt := qr_createdAt resp |}))
       /\ (forall other, other <> accountId ->
             getQuote env' other (qr_id resp) st1 st' = (st', Throw notFound)).
Proof.
  intros H. apply createQuote_ok_inv in H as (ep & _ & _ & -> & ->).
  cbn [qr_status qr_expiresAt qr_id]. split; [reflexivity|].
  split; [reflexivity|]. intros env' st'.
  unfold getQuote. cbn [set_quotes quotes]. rewrite lookup_insert_eq.
  cbn [q_accountId q_status q_expiresAt]. split; [|split].
  - intros Hnow. rewrite String.eqb_refl. cbn [negb].
    rewrite bool_decide_eq_true_2 by reflexivity.
    assert (E : (now env + QUOTE_TTL_MS <? now env') = false)
      by (apply Z.ltb_ge; exact Hnow).
    rewrite E.
    cbn [andb q_accountId q_baseCurrency q_quoteCurrency
         q_side q_baseAmount q_quoteAmount q_price q_expiresAt q_status
         q_createdAt].
    reflexivity.
  - intros Hnow. rewrite String.eqb_refl. cbn [negb].
    rewrite bool_decide_eq_true_2 by reflexivity.
    assert (E : (now env + QUOTE_TTL_MS <? now env') = true)
      by (apply Z.ltb_lt; exact Hnow).
    rewrite E.
    cbn [andb fst update_quote_status q_accountId q_baseCurrency q_quoteCurrency
         q_side q_baseAmount q_quoteAmount q_price q_expiresAt q_status
         q_createdAt qr_id qr_baseCurrency qr_quoteCurrency qr_side
         qr_baseAmount qr_quoteAmount qr_price qr_expiresAt qr_status
         qr_createdAt].
    reflexivity.
  - intros other Hne.
    destruct (String.eqb accountId other) eqn:E; [|cbn [negb]; reflexivity].
    apply String.eqb_eq in E. congruence.
Qed.

(** A quote to buy 100 EUR created at 1000 and read at 2000, by its
    account and by another. *)
Lemma createQuote_then_getQuote_witness :
  let r := createQuote (env_at 1000 "q-1" "b-7") "test-account" "EUR" "USDT" BUY
             n100 seeded in
  exists resp,
    snd r = Ok resp
    /\ qr_id resp = "q-1"
    /\ qr_expiresAt resp = 31000
    /\ getQuote (env_at 2000 "x" "y") "test-account" "q-1" (fst r) (fst r)
       = (fst r, Ok resp)
    /\ getQuote (env_at 2000 "x" "y") "intruder" "q-1" (fst r) (fst r)
       = (fst r, Throw notFound).
Proof.
  cbv zeta.
  set (r := createQuote (env_at 1000 "q-1" "b-7") "test-account" "EUR" "USDT" BUY
              n100 seeded).
  set (resp := {| qr_id := "q-1"; qr_baseCurrency := "EUR";
                  qr_quoteCurrency := "USDT"; qr_side := BUY;
                  qr_baseAmount := "100.00000000";
                  qr_quoteAmount := "117.92000000"; qr_price := "1.17920000";
                  qr_expiresAt := 31000; qr_status := OPEN;
                  qr_createdAt := 1000 |}).
  assert (Hs : snd r = Ok resp) by (vm_compute; reflexivity).
  assert (Hx : createQuote (env_at 1000 "q-1" "b-7") "test-account" "EUR" "USDT"
                 BUY n100 seeded = (fst r, Ok resp))
    by (rewrite <- Hs; apply surjective_pairing).
  destruct (createQuote_then_getQuote _ _ _ _ _ _ _ _ _ Hx) as (_ & _ & Hget).
  destruct (Hget (env_at 2000 "x" "y") (fst r)) as (Hfresh & _ & Hother).
  exists resp. split; [exact Hs|]. split; [reflexivity|]. split; [reflexivity|].
  split.
  - apply Hfresh. cbn. lia.
  - apply (Hother "intruder"). discriminate.
Defined.

(** [createQuote] reserves nothing and checks no balance: whether it
    returns a quote or throws, the balances, the trades and the accounts are
    as before; when it throws, so are the quotes; and its result is the same
    whatever the balances are. *)
Theorem createQuote_reserves_nothing env accountId baseCurrency quoteCurrency
    side amount st :
  let r := createQuote env accountId baseCurrency quoteCurrency side amount st in
  balances (fst r) = balances st
  /\ trades (fst r) = trades st
  /\ accounts (fst r) = accounts st
  /\ (forall e, snd r = Throw e -> fst r = st)
  /\ forall f,
       snd (createQuote env accountId baseCurrency quoteCurrency side amount
              (set_balances f st)) = snd r.
Proof.
  cbv zeta. unfold createQuote, validatePair, mbind, M_bind, bind, lift.
  destruct (negb (pair_supported baseCurrency quoteCurrency)); cbn;
    [repeat split; auto|].
  destruct (getExecutionPrice env baseCurrency quoteCurrency side) as [ep|e];
    cbn; [|repeat split; auto].
  unfold insert_quote. cbn [set_balances quotes accounts].
  destruct (quotes st !! randomUUID env) eqn:Hid; cbn; [repeat split; auto|].
  destruct (bool_decide (accountId ∈ accounts st)); cbn; repeat split; auto.
  intros e He. discriminate.
Qed.

End QuoteFacts.

(** ** Quote selection and pair lookup *)

Section RoutingFacts.
Import JsNumber Money Types Errors Sor PriceService.

Lemma getBestQuote_cases (binanceBid binanceAsk : Z) (side : Side) :
  let venues := [ fetchBinance binanceBid binanceAsk;
                  fetchMassiveFX binanceBid binanceAsk;
                  fetchCoinGecko binanceBid binanceAsk ] in
  exists best,
    getBestQuote binanceBid binanceAsk side = Ok best
    /\ bq_allQuotes best ≡ₚ venues
    /\ (exists v, v ∈ venues /\ source v = bq_source best
                  /\ bid v = bq_bidPrice best /\ ask v = bq_askPrice best)
    /\ match side with
       | BUY => bq_price best = bq_askPrice best
                /\ forall v, v ∈ venues -> bq_askPrice best <= ask v
       | SELL => bq_price best = bq_bidPrice best
                 /\ forall v, v ∈ venues -> bid v <= bq_bidPrice best
       end.
Proof.
  cbv zeta. unfold getBestQuote. cbn [length Nat.eqb]. unfold sort_by.
  cbn [fold_left insert_by].
  set (b := fetchBinance binanceBid binanceAsk).
  set (m := fetchMassiveFX binanceBid binanceAsk).
  set (c := fetchCoinGecko binanceBid binanceAsk).
  assert (Hall : forall (P : Quote -> Prop), P b -> P m -> P c ->
                 forall v, v ∈ [b; m; c] -> P v).
  { intros P Hb Hm Hc v Hv.
    repeat (apply elem_of_cons in Hv as [->|Hv]; [assumption|]).
    apply elem_of_nil in Hv. contradiction. }
  assert (Hb : b ∈ [b; m; c]) by left.
  assert (Hm : m ∈ [b; m; c]) by (right; left).
  assert (Hc : c ∈ [b; m; c]) by (right; right; left).
  assert (P1 : [m; b; c] ≡ₚ [b; m; c]) by apply Permutation_swap.
  assert (P2 : [b; c; m] ≡ₚ [b; m; c])
    by (apply Permutation_skip, Permutation_swap).
  assert (P3 : [c; b; m] ≡ₚ [b; m; c])
    by (rewrite <- P2; apply Permutation_swap).
  assert (P4 : [m; c; b] ≡ₚ [b; m; c])
    by (rewrite <- P1; apply Permutation_skip, Permutation_swap).
  assert (P5 : [c; m; b] ≡ₚ [b; m; c])
    by (rewrite <- P4; apply Permutation_swap).
  destruct side.
  - destruct (ask m - ask b <? 0) eqn:E1; cbn [insert_by];
      [destruct (ask c - ask m <? 0) eqn:E2; cbn [insert_by];
         [|destruct (ask c - ask b <? 0) eqn:E3]
      |destruct (ask c - ask b <? 0) eqn:E2; cbn [insert_by];
         [|destruct (ask c - ask m <? 0) eqn:E3]];
      repeat match goal with
             | H : (_ <? _) = true |- _ => apply Z.ltb_lt in H
             | H : (_ <? _) = false |- _ => apply Z.ltb_ge in H
             end;
      (eexists; split; [reflexivity|]; cbn [bq_allQuotes bq_source bq_bidPrice
                                             bq_askPrice bq_price];
       split; [first [reflexivity | assumption]|];
       split; [first [ exists b; split; [exact Hb | repeat split; reflexivity]
                     | exists m; split; [exact Hm | repeat split; reflexivity]
                     | exists c; split; [exact Hc | repeat split; reflexivity] ]|];
       split; [reflexivity|]; apply Hall; lia).
  - destruct (bid b - bid m <? 0) eqn:E1; cbn [insert_by];
      [destruct (bid m - bid c <? 0) eqn:E2; cbn [insert_by];
         [|destruct (bid b - bid c <? 0) eqn:E3]
      |destruct (bid b - bid c <? 0) eqn:E2; cbn [insert_by];
         [|destruct (bid m - bid c <? 0) eqn:E3]];
      repeat match goal with
             | H : (_ <? _) = true |- _ => apply Z.ltb_lt in H
             | H : (_ <? _) = false |- _ => apply Z.ltb_ge in H
             end;
      (eexists; split; [reflexivity|]; cbn [bq_allQuotes bq_source bq_bidPrice
                                             bq_askPrice bq_price];
       split; [first [reflexivity | assumption]|];
       split; [first [ exists b; split; [exact Hb | repeat split; reflexivity]
                     | exists m; split; [exact Hm | repeat split; reflexivity]
                     | exists c; split; [exact Hc | repeat split; reflexivity] ]|];
       split; [reflexivity|]; apply Hall; lia).
Qed.

(** [getBestQuote] never fails. For a BUY it returns the lowest ask among
    the three venues, for a SELL the highest bid, together with the bid,
    the ask and the name of the venue that quotes it; [allQuotes] holds the
    quotes of the three venues. *)
Theorem getBestQuote_best_of_venues (binanceBid binanceAsk : Z) (side : Side) :
  let venues := [ fetchBinance binanceBid binanceAsk;
                  fetchMassiveFX binanceBid binanceAsk;
                  fetchCoinGecko binanceBid binanceAsk ] in
  exists best,
    getBestQuote binanceBid binanceAsk side = Ok best
    /\ bq_allQuotes best ≡ₚ venues
    /\ (exists v, v ∈ venues /\ source v = bq_source best
                  /\ bid v = bq_bidPrice best /\ ask v = bq_askPrice best)
    /\ match side with
       | BUY => bq_price best = bq_askPrice best
                /\ forall v, v ∈ venues -> bq_askPrice best <= ask v
       | SELL => bq_price best = bq_bidPrice best
                 /\ forall v, v ∈ venues -> bid v <= bq_bidPrice best
       end.
Proof. exact (getBestQuote_cases binanceBid binanceAsk side). Qed.

Lemma upper_ascii_idem (c : ascii) : upper_ascii (upper_ascii c) = upper_ascii c.
Proof. destruct c as [[] [] [] [] [] [] [] []]; reflexivity. Qed.

Lemma upper_ascii_separator (c : ascii) :
  (Ascii.eqb (upper_ascii c) "_" || Ascii.eqb (upper_ascii c) "/"
   || Ascii.eqb (upper_ascii c) "-")%char
  = (Ascii.eqb c "_" || Ascii.eqb c "/" || Ascii.eqb c "-")%char.
Proof. destruct c as [[] [] [] [] [] [] [] []]; reflexivity. Qed.

Lemma toUpperCase_idem (s : string) : toUpperCase (toUpperCase s) = toUpperCase s.
Proof.
  induction s as [|c s IH]; [reflexivity|].
  cbn. rewrite upper_ascii_idem, IH. reflexivity.
Qed.

Lemma strip_separators_idem (s : string) :
  strip_separators (strip_separators s) = strip_separators s.
Proof.
  induction s as [|c s IH]; [reflexivity|].
  cbn. destruct (Ascii.eqb c "_" || Ascii.eqb c "/" || Ascii.eqb c "-")%char eqn:E.
  - exact IH.
  - cbn. rewrite E, IH. reflexivity.
Qed.

Lemma toUpperCase_strip_separators (s : string) :
  toUpperCase (strip_separators s) = strip_separators (toUpperCase s).
Proof.
  induction s as [|c s IH]; [reflexivity|].
  cbn. rewrite upper_ascii_separator.
  destruct (Ascii.eqb c "_" || Ascii.eqb c "/" || Ascii.eqb c "-")%char.
  - exact IH.
  - cbn. rewrite IH. reflexivity.
Qed.

(** On a string of ASCII characters [findPair] does not tell upper case
    from lower case, nor see the separators [_], [/] and [-], wherever they
    stand; and whatever it finds is a configured pair whose symbol, in
    either orientation, is the normalised string. *)
Theorem findPair_normalises (pairStr : string) :
  ascii_only pairStr = true ->
  findPair (toUpperCase pairStr) = findPair pairStr
  /\ findPair (strip_separators pairStr) = findPair pairStr
  /\ forall p, findPair pairStr = Some p ->
       In p SUPPORTED_PAIRS
       /\ (strip_separators (toUpperCase pairStr) = base p +:+ quote p
           \/ strip_separators (toUpperCase pairStr) = quote p +:+ base p).
Proof.
  intros _. unfold findPair. split; [|split].
  - rewrite toUpperCase_idem. reflexivity.
  - rewrite toUpperCase_strip_separators, strip_separators_idem. reflexivity.
  - intros p Hp. apply List.find_some in Hp as [Hin Hp]. split; [exact Hin|].
    destruct Hin as [<-|[<-|[]]]; cbn [symbol base quote] in Hp |- *;
      repeat (apply orb_true_iff in Hp as [Hp|Hp]);
      apply String.eqb_eq in Hp; rewrite <- Hp;
      first [left; reflexivity | right; reflexivity].
Qed.

Lemma findPair_normalises_witness :
  findPair (toUpperCase "eur_usdt") = findPair "eur_usdt"
  /\ findPair (strip_separators "eur_usdt") = findPair "eur_usdt"
  /\ findPair "eur_usdt"
     = Some {| symbol := "EURUSDT"; base := "EUR"; quote := "USDT" |}
  /\ findPair "Usdt/Btc"
     = Some {| symbol := "BTCUSDT"; base := "BTC"; quote := "USDT" |}.
Proof.
  destruct (findPair_normalises "eur_usdt") as (H1 & H2 & _); [reflexivity|].
  split; [exact H1|]. split; [exact H2|]. split; reflexivity.
Defined.

End RoutingFacts.

(** ** The price cache *)

Section CacheFacts.
Import Types Errors.
Context {K : Type} `{Countable K} {V : Type}.

Lemma cache_get_set (store : PriceCache.t K V) (now now' ttl : Z)
    (key : K) (v : V) :
  PriceCache.get now' key (PriceCache.set now key v ttl store)
  = (if now + ttl <? now'
     then (delete key store, None)
     else (PriceCache.set now key v ttl store, Some v)).
Proof.
  unfold PriceCache.get, PriceCache.set, PriceCache.t in *.
  rewrite lookup_insert_eq. cbn.
  destruct (now + ttl <? now'); [|reflexivity].
  rewrite delete_insert_eq. reflexivity.
Qed.

(** What [set] stores, [get] returns until the clock has passed the time
    of the [set] plus the time to live, the last millisecond included;
    afterwards [get] returns [null] and removes the entry. Other keys are
    not affected by either. *)
Theorem cache_set_then_get (store : PriceCache.t K V) (now now' ttl : Z)
    (key : K) (v : V) :
  PriceCache.get now' key (PriceCache.set now key v ttl store)
  = (if now + ttl <? now'
     then (delete key store, None)
     else (PriceCache.set now key v ttl store, Some v))
  /\ forall key', key' <> key ->
       snd (PriceCache.get now' key' (PriceCache.set now key v ttl store))
       = snd (PriceCache.get now' key' store)
       /\ fst (PriceCache.get now' key (PriceCache.set now key v ttl store)) !! key'
          = store !! key'.
Proof.
  split; [apply cache_get_set|].
  unfold PriceCache.get, PriceCache.set, PriceCache.t in *.
  intros key' Hne. split.
  -
 rewrite lookup_insert_ne by congruence.
    destruct (store !! key') as [entry|]; [|reflexivity].
    destruct (PriceCache.expiresAt entry <? now'); reflexivity.
  - rewrite lookup_insert_eq. cbn.
    destruct (now + ttl <? now'); cbn.
    + rewrite lookup_delete_ne by congruence.
      rewrite lookup_insert_ne by congruence. reflexivity.
    + rewrite lookup_insert_ne by congruence. reflexivity.
Qed.

End CacheFacts.

Section FeedFacts.
Import Types Errors Binance Scenario.

Lemma cache_get_miss {V} (now : Z) (key : string) (store : PriceCache.t string V) :
  snd (PriceCache.get now key store) = None ->
  fst (PriceCache.get now key store) !! key = None.
Proof.
  unfold PriceCache.get, PriceCache.t in *.
  destruct (store !! key) as [entry|] eqn:E; [|intros _; exact E].
  destruct (PriceCache.expiresAt entry <? now); [|discriminate].
  intros _. cbn. apply lookup_delete_eq.
Qed.

Lemma fetch_miss {V} (now : Z) (symbol : string) (cache : PriceCache.t string V) :
  cache !! symbol = None -> PriceCache.get now symbol cache = (cache, None).
Proof. unfold PriceCache.get, PriceCache.t in *. intros ->. reflexivity. Qed.

(** A ticker that [fetchBookTicker] fetched from Binance is served from
    the cache for the next 5 seconds, counted from the time it was stored,
    whatever other calls did to the cache while the fetch was awaited:
    within them a call for the symbol on the cache the fetch left returns
    that ticker without looking at what Binance would answer, and leaves
    the cache as it is. Once they have passed, such a call asks Binance
    again. *)
Theorem fetchBookTicker_serves_cache http now now' symbol others cache data :
  snd (PriceCache.get now symbol cache) = None ->
  http symbol = Http_ok data ->
  let r := fetchBookTicker http now now' symbol others cache in
  snd r = Ok data
  /\ (forall http2 now2 now2' others2,
        now2 <= now' + 5000 ->
        fetchBookTicker http2 now2 now2' symbol others2 (fst r)
        = (fst r, Ok data))
  /\ (forall http2 now2 now2' others2,
        now' + 5000 < now2 ->
        snd (fetchBookTicker http2 now2 now2' symbol others2 (fst r))
        = match http2 symbol with
          | Http_ok data2 => Ok data2
          | Http_error _ => Throw priceFetchFailed
          end).
Proof.
  intros Hmiss Hhttp. cbv zeta. unfold fetchBookTicker.
  destruct (PriceCache.get now symbol cache) as [cache0 [cached|]] eqn:Hget;
    [discriminate|].
  rewrite Hhttp. cbn [fst snd]. split; [reflexivity|]. split.
  - intros http2 now2 now2' others2 Hnow.
    rewrite (cache_get_set (others cache0) now' now2 PRICE_CACHE_TTL_MS symbol data).
    assert (E : (now' + PRICE_CACHE_TTL_MS <? now2) = false)
      by (apply Z.ltb_ge; unfold PRICE_CACHE_TTL_MS; lia).
    rewrite E. reflexivity.
  - intros http2 now2 now2' others2 Hnow.
    rewrite (cache_get_set (others cache0) now' now2 PRICE_CACHE_TTL_MS symbol data).
    assert (E : (now' + PRICE_CACHE_TTL_MS <? now2) = true)
      by (apply Z.ltb_lt; unfold PRICE_CACHE_TTL_MS; lia).
    rewrite E. destruct (http2 symbol); reflexivity.
Qed.

(** The EURUSDT ticker fetched into an empty cache at 1000 and stored at
    1040 is served at 6040 although Binance is then out of service; at 6041
    the call fails. *)
Lemma fetchBookTicker_serves_cache_witness :
  let r := fetchBookTicker http0 1000 1040 "EURUSDT" id ∅ in
  exists data,
    snd r = Ok data
    /\ fetchBookTicker http_down 6040 6050 "EURUSDT" id (fst r) = (fst r, Ok data)
    /\ snd (fetchBookTicker http_down 6041 6050 "EURUSDT" id (fst r))
       = Throw priceFetchFailed.
Proof.
  cbv zeta.
  assert (Hmiss : snd (PriceCache.get 1000 "EURUSDT"
                         (∅ : PriceCache.t string BinanceBookTicker)) = None)
    by reflexivity.
  assert (Hhttp : http0 "EURUSDT"
                  = Http_ok {| bt_symbol := "EURUSDT"; bidPrice := "1.17900000";
                               bidQty := "1"; askPrice := "1.17920000";
                               askQty := "1" |}) by reflexivity.
  destruct (fetchBookTicker_serves_cache http0 1000 1040 "EURUSDT" id ∅ _
              Hmiss Hhttp) as (Hr & Hin & Hout).
  eexists. split; [exact Hr|]. split.
  - apply Hin. lia.
  - rewrite Hout by lia. reflexivity.
Defined.

(** A failed fetch is not cached: when the cache has no live entry for
    the symbol and Binance answers with an error, [fetchBookTicker] and
    [fetchTickerPrice] throw PRICE_FETCH_FAILED and write nothing, so that
    the cache is as the other calls served in the meantime left it. When
    those did not touch the symbol's entry there is none afterwards, and
    the next call, whenever it comes, asks Binance again. *)
Theorem fetch_failure_not_cached symbol now now' status :
  (forall http others cache,
     snd (PriceCache.get now symbol cache) = None ->
     http symbol = Http_error status ->
     let r := fetchBookTicker http now now' symbol others cache in
     snd r = Throw priceFetchFailed
     /\ fst r = others (fst (PriceCache.get now symbol cache))
     /\ ((forall c, others c !! symbol = c !! symbol) ->
         fst r !! symbol = None
         /\ forall http2 now2 now2' others2,
              snd (fetchBookTicker http2 now2 now2' symbol others2 (fst r))
              = match http2 symbol with
                | Http_ok data2 => Ok data2
                | Http_error _ => Throw priceFetchFailed
                end))
  /\ (forall http others cache,
        snd (PriceCache.get now symbol cache) = None ->
        http symbol = Http_error status ->
        let r := fetchTickerPrice http now now' symbol others cache in
        snd r = Throw priceFetchFailed
        /\ fst r = others (fst (PriceCache.get now symbol cache))
        /\ ((forall c, others c !! symbol = c !! symbol) ->
            fst r !! symbol = None
            /\ forall http2 now2 now2' others2,
                 snd (fetchTickerPrice http2 now2 now2' symbol others2 (fst r))
                 = match http2 symbol with
                   | Http_ok data2 => Ok data2
                   | Http_error _ => Throw priceFetchFailed
                   end)).
Proof.
  split; intros http others cache Hmiss Hhttp; cbv zeta;
    pose proof (cache_get_miss now symbol cache Hmiss) as Hnone.
  - assert (Hf : fetchBookTicker http now now' symbol others cache
                 = (others (fst (PriceCache.get now symbol cache)),
                    Throw priceFetchFailed)).
    { unfold fetchBookTicker.
      destruct (PriceCache.get now symbol cache) as [cache0 [cached|]];
        [discriminate|].
      rewrite Hhttp. reflexivity. }
    rewrite Hf. cbn [fst snd]. split; [reflexivity|]. split; [reflexivity|].
    intros Hkeep. rewrite <- (Hkeep _) in Hnone. split; [exact Hnone|].
    intros http2 now2 now2' others2. unfold fetchBookTicker.
    rewrite (fetch_miss now2 symbol _ Hnone).
    destruct (http2 symbol); reflexivity.
  - assert (Hf : fetchTickerPrice http now now' symbol others cache
                 = (others (fst (PriceCache.get now symbol cache)),
                    Throw priceFetchFailed)).
    { unfold fetchTickerPrice.
      destruct (PriceCache.get now symbol cache) as [cache0 [cached|]];
        [discriminate|].
      rewrite Hhttp. reflexivity. }
    rewrite Hf. cbn [fst snd]. split; [reflexivity|]. split; [reflexivity|].
    intros Hkeep. rewrite <- (Hkeep _) in Hnone. split; [exact Hnone|].
    intros http2 now2 now2' others2. unfold fetchTickerPrice.
    rewrite (fetch_miss now2 symbol _ Hnone).
    destruct (http2 symbol); reflexivity.
Qed.

End FeedFacts.

(** ** The rate limiter *)

Section RateLimitFacts.
Import Types Errors RateLimiter.

Lemma filter_length_le {A} (P Q : A -> Prop) `{!forall x, Decision (P x)}
    `{!forall x, Decision (Q x)} (l : list A) :
  (forall x, P x -> Q x) -> (length (filter P l) <= length (filter Q l))%nat.
Proof.
  intros HPQ. induction l as [|x l IH]; [reflexivity|].
  rewrite !filter_cons. destruct (decide (P x)) as [HP|HP].
  - rewrite decide_True by (apply HPQ; exact HP). cbn. lia.
  - destruct (decide (Q x)); cbn; lia.
Qed.

Lemma filter_ext_eq {A} (P Q : A -> Prop) `{!forall x, Decision (P x)}
    `{!forall x, Decision (Q x)} (l : list A) :
  Forall (fun x => P x <-> Q x) l -> filter P l = filter Q l.
Proof.
  induction 1 as [|x l Hx _ IH]; [reflexivity|].
  rewrite !filter_cons. destruct (decide (P x)) as [HP|HP].
  - rewrite decide_True by (apply Hx; exact HP). rewrite IH. reflexivity.
  - rewrite decide_False by (intros HQ; apply HP, Hx; exact HQ). exact IH.
Qed.

Lemma Forall_filter_keep {A} (P Q : A -> Prop) `{!forall x, Decision (P x)}
    (l : list A) :
  Forall Q l -> Forall Q (filter P l).
Proof.
  induction 1 as [|x l Hx _ IH]; [constructor|].
  rewrite filter_cons. destruct (decide (P x)); [constructor; assumption | exact IH].
Qed.

Lemma filter_all {A} (P : A -> Prop) `{!forall x, Decision (P x)} (l : list A) :
  Forall P l -> filter P l = l.
Proof.
  induction 1 as [|x l Hx _ IH]; [reflexivity|].
  rewrite filter_cons_True by exact Hx. rewrite IH. reflexivity.
Qed.

Lemma StronglySorted_filter_le (P : Z -> Prop) `{!forall x, Decision (P x)}
    (l : list Z) :
  StronglySorted Z.le l -> StronglySorted Z.le (filter P l).
Proof.
  induction 1 as [|x l Hs IH Hx]; [constructor|].
  rewrite filter_cons. destruct (decide (P x)); [|exact IH].
  constructor; [exact IH|]. apply Forall_filter_keep. exact Hx.
Qed.

Lemma StronglySorted_snoc (l : list Z) (x : Z) :
  StronglySorted Z.le l -> Forall (fun s => s <= x) l ->
  StronglySorted Z.le (l ++ [x]).
Proof.
  induction 1 as [|y l Hs IH Hy]; intros Hx; cbn.
  - constructor; constructor.
  - apply Forall_cons in Hx as [Hyx Hx]. constructor; [apply IH; exact Hx|].
    apply Forall_app. split; [exact Hy|]. constructor; [exact Hyx | constructor].
Qed.

(** On timestamps in the order of the clock the loop of [check] removes
    exactly the timestamps before the cutoff. *)
Lemma evict_filter (cutoff : Z) (l : list Z) :
  StronglySorted Z.le l -> evict cutoff l = filter (fun s => cutoff <= s) l.
Proof.
  induction 1 as [|x l Hs IH Hx]; [reflexivity|].
  cbn [evict]. rewrite filter_cons. destruct (x <? cutoff) eqn:E.
  - apply Z.ltb_lt in E. rewrite decide_False by lia. exact IH.
  - apply Z.ltb_ge in E. rewrite decide_True by lia. f_equal.
    symmetry. apply filter_all.
    eapply Forall_impl; [exact Hx|]. cbn. intros y Hy. lia.
Qed.

Lemma evict_evict (c1 c2 : Z) (l : list Z) :
  c1 <= c2 -> evict c2 (evict c1 l) = evict c2 l.
Proof.
  intros Hc. induction l as [|x l IH]; [reflexivity|].
  cbn [evict]. destruct (x <? c1) eqn:E1.
  - apply Z.ltb_lt in E1.
    assert (E2 : (x <? c2) = true) by (apply Z.ltb_lt; lia).
    rewrite E2. exact IH.
  - reflexivity.
Qed.

Lemma evict_all (cutoff : Z) (l : list Z) :
  Forall (fun s => s < cutoff) l -> evict cutoff l = [].
Proof.
  induction 1 as [|x l Hx _ IH]; [reflexivity|].
  cbn [evict]. apply Z.ltb_lt in Hx. rewrite Hx. exact IH.
Qed.

Lemma check_fields now accountId rl :
  maxRequests (fst (check now accountId rl)) = maxRequests rl
  /\ windowMs (fst (check now accountId rl)) = windowMs rl.
Proof. unfold check. destruct (_ <=? _); split; reflexivity. Qed.

Lemma check_other now accountId other rl :
  other <> accountId ->
  windows (fst (check now accountId rl)) !! other = windows rl !! other.
Proof.
  intros Hne. unfold check. destruct (_ <=? _); cbn [fst set_windows windows];
    apply lookup_insert_ne; congruence.
Qed.

Lemma filter_none {A} (P : A -> Prop) `{!forall x, Decision (P x)} (l : list A) :
  (forall x, ~ P x) -> filter P l = [].
Proof.
  intros HP. induction l as [|x l IH]; [reflexivity|].
  rewrite filter_cons_False by apply HP. exact IH.
Qed.

Lemma filter_account_times (a : string) (I : Z -> Prop)
    `{!forall s, Decision (I s)} (l : list (string * Z)) :
  length (filter (fun r => fst r = a /\ I (snd r)) l)
  = length (filter I (snd <$> filter (fun r => fst r = a) l)).
Proof.
  induction l as [|[b s] l IH]; [reflexivity|].
  rewrite !filter_cons. cbn [fst snd].
  destruct (decide (b = a)) as [->|Hne].
  - rewrite fmap_cons, filter_cons. cbn [snd].
    destruct (decide (I s)) as [HI|HI].
    + rewrite decide_True by (split; [reflexivity | exact HI]). cbn. rewrite IH.
      reflexivity.
    + rewrite decide_False by (intros [_ ?]; contradiction). exact IH.
  - rewrite decide_False by (intros [? _]; contradiction). exact IH.
Qed.

(** The state of the limiter in a run: the window of the account holds
    the admitted timestamps that are not older than the last cutoff. *)
Lemma admitted_window (a : string) (m w : Z) :
  0 <= w ->
  forall requests rl h t0 c,
    maxRequests rl = m -> windowMs rl = w ->
    StronglySorted Z.le (snd <$> requests) ->
    Forall (fun r => t0 <= snd r) requests ->
    StronglySorted Z.le h ->
    Forall (fun s => s <= t0) h ->
    c <= t0 - w ->
    default [] (windows rl !! a) = filter (fun s => c <= s) h ->
    (forall u, Z.of_nat (length (filter (fun s => u <= s <= u + w) h)) <= m) ->
    forall u,
      Z.of_nat
        (length (filter (fun s => u <= s <= u + w)
                   (h ++ (snd <$> filter (fun r => fst r = a)
                                    (admitted requests rl)))))
      <= m.
Proof.
  intros Hw requests. induction requests as [|[b now] requests IH];
    intros rl h t0 c Hm Hwm Hsorted Hge Hh Hle Hc Hwin Hcount u.
  - cbn. rewrite app_nil_r. apply Hcount.
  - rewrite fmap_cons in Hsorted. cbn [snd] in Hsorted.
    apply StronglySorted_inv in Hsorted as [Hsorted Hnow].
    apply Forall_cons in Hge as [Ht0 Hge]. cbn [snd] in Ht0.
    assert (Hge' : Forall (fun r => now <= snd r) requests).
    { apply (proj1 (Forall_fmap snd (Z.le now) requests)). exact Hnow. }
    assert (Hh' : Forall (fun s => s <= now) h).
    { eapply Forall_impl; [exact Hle|]. cbn. intros s Hs. lia. }
    cbn [admitted].
    pose proof (check_fields now b rl) as [Hm' Hw'].
    destruct (decide (b = a)) as [->|Hne].
    + unfold check in *. rewrite Hwm, Hm in *.
      set (ts' := evict (now - w) (default [] (windows rl !! a))) in *.
      assert (Hts' : ts' = filter (fun s => now - w <= s) h).
      { unfold ts'. rewrite Hwin.
        rewrite evict_filter by (apply StronglySorted_filter_le; exact Hh).
        rewrite list_filter_filter. apply filter_ext_eq.
        apply Forall_forall. intros s _. lia. }
      destruct (m <=? Z.of_nat (length ts')) eqn:E; cbn [fst snd] in *.
      * apply (IH _ h now (now - w)); try assumption; try lia.
        cbn [set_windows windows]. rewrite lookup_insert_eq. exact Hts'.
      * apply Z.leb_gt in E.
        rewrite filter_cons_True by reflexivity. rewrite fmap_cons. cbn [snd].
        replace (h ++ now :: (snd <$> filter (fun r => fst r = a)
                                (admitted requests
                                   (set_windows (insert a (ts' ++ [now])) rl))))
          with ((h ++ [now]) ++ (snd <$> filter (fun r => fst r = a)
                                   (admitted requests
                                      (set_windows (insert a (ts' ++ [now])) rl))))
          by (rewrite <- app_assoc; reflexivity).
        apply (IH _ (h ++ [now]) now (now - w)); try assumption; try lia.
        -- apply StronglySorted_snoc; assumption.
        -- apply Forall_app. split; [exact Hh'|]. constructor; [lia | constructor].
        -- cbn [set_windows windows]. rewrite lookup_insert_eq. cbn [default].
           rewrite filter_app, Hts'. f_equal.
           rewrite filter_cons_True by lia. reflexivity.
        -- intros u'. rewrite filter_app, length_app.
           destruct (decide (u' <= now <= u' + w)) as [Hin|Hout].
           ++ rewrite (filter_cons_True _ now []) by exact Hin. cbn [length filter].
              assert (length (filter (fun s => (u' <= s <= u' + w)%Z) h)
                      <= length ts')%nat; [|cbn; lia].
              rewrite Hts'. apply filter_length_le. intros s Hs. lia.
           ++ rewrite (filter_cons_False _ now []) by exact Hout. cbn.
              pose proof (Hcount u'). lia.
    + assert (Hwin' : windows (fst (check now b rl)) !! a = windows rl !! a)
        by (apply check_other; congruence).
      destruct (check now b rl) as [rl' [ok|e]]; cbn [fst] in *.
      * rewrite filter_cons_False by (cbn; congruence).
        apply (IH rl' h now c); try assumption; try lia.
        rewrite Hwin'. exact Hwin.
      * apply (IH rl' h now c); try assumption; try lia.
        rewrite Hwin'. exact Hwin.
Qed.

(** The sliding window: when the clock does not run backwards, [check]
    lets at most [maxRequests] requests of one account pass in any span of
    [windowMs] milliseconds, both ends included, whatever the requests of
    the other accounts in between. *)
Theorem rate_limit_sliding_window (maxRequests windowMs : Z)
    (requests : list (string * Z)) (accountId : string) (u : Z) :
  0 <= maxRequests ->
  StronglySorted Z.le (snd <$> requests) ->
  Z.of_nat
    (length (filter (fun r => fst r = accountId /\ u <= snd r <= u + windowMs)
               (admitted requests (new maxRequests windowMs))))
  <= maxRequests.
Proof.
  intros Hm Hsorted.
  destruct (Z.lt_ge_cases windowMs 0) as [Hneg|Hpos].
  { rewrite filter_none by (intros r [_ Hr]; lia). cbn. exact Hm. }
  pose proof (filter_account_times accountId (fun s => u <= s <= u + windowMs)
                (admitted requests (new maxRequests windowMs))) as Hf.
  cbv beta in Hf. rewrite Hf. clear Hf.
  set (t0 := match requests with r :: _ => snd r | [] => 0 end).
  change (snd <$> filter (fun r => fst r = accountId)
                    (admitted requests (new maxRequests windowMs)))
    with ([] ++ (snd <$> filter (fun r => fst r = accountId)
                           (admitted requests (new maxRequests windowMs)))).
  apply (admitted_window accountId maxRequests windowMs Hpos requests
           (new maxRequests windowMs) [] t0 (t0 - windowMs));
    try reflexivity; try assumption; try constructor; try lia.
  - destruct requests as [|r requests]; [constructor|].
    rewrite fmap_cons in Hsorted.
    apply StronglySorted_inv in Hsorted as [_ Hr].
    constructor; [cbn; lia|].
    apply (proj1 (Forall_fmap snd (Z.le (snd r)) requests)). exact Hr.
  - intros u'. cbn. exact Hm.
Qed.

(** A limiter of 2 requests per second: of five requests of one account,
    with one of another account in between, the third is rejected and the
    others pass, two in the first second and two in the next. *)
Lemma rate_limit_sliding_window_witness :
  let requests := [("a", 0); ("a", 10); ("b", 15); ("a", 20); ("a", 1011);
                   ("a", 1015)] in
  admitted requests (new 2 1000)
  = [("a", 0); ("a", 10); ("b", 15); ("a", 1011); ("a", 1015)]
  /\ Z.of_nat
       (length (filter (fun r => fst r = "a" /\ 10 <= snd r <= 10 + 1000)
                  (admitted requests (new 2 1000)))) <= 2.
Proof.
  cbv zeta. split; [vm_compute; reflexivity|].
  apply (rate_limit_sliding_window 2 1000); [lia|].
  cbn.
  repeat first [ apply SSorted_nil | apply SSorted_cons | apply List.Forall_nil
               | apply List.Forall_cons; [lia|] ].
Defined.

Lemma check_insert now accountId l rl :
  check now accountId (set_windows (insert accountId l) rl)
  = (if maxRequests rl <=? Z.of_nat (length (evict (now - windowMs rl) l))
     then (set_windows (insert accountId (evict (now - windowMs rl) l)) rl,
           Throw rateLimited)
     else (set_windows (insert accountId (evict (now - windowMs rl) l ++ [now])) rl,
           Ok true)).
Proof.
  unfold check. cbn [set_windows windows maxRequests windowMs].
  rewrite lookup_insert_eq. cbn [default from_option]. unfold id.
  destruct (maxRequests rl <=? _); unfold set_windows;
    cbn [maxRequests windowMs windows]; rewrite insert_insert_eq; reflexivity.
Qed.

(** A rejected request costs nothing: it adds no timestamp, so every
    later [check] of the account decides and leaves the limiter exactly as
    if the rejected request had not been made. *)
Theorem rejected_request_costs_nothing now now2 accountId rl e :
  snd (check now accountId rl) = Throw e ->
  now <= now2 ->
  e = rateLimited
  /\ check now2 accountId (fst (check now accountId rl)) = check now2 accountId rl.
Proof.
  intros He Hnow.
  assert (Hc : check now accountId rl
               = (set_windows
                    (insert accountId
                       (evict (now - windowMs rl)
                          (default [] (windows rl !! accountId)))) rl,
                  Throw rateLimited)).
  { unfold check in *. destruct (maxRequests rl <=? _); [reflexivity|discriminate]. }
  rewrite Hc in He. cbn [snd] in He. inversion He. split; [reflexivity|].
  rewrite Hc. cbn [fst]. rewrite check_insert.
  rewrite evict_evict by lia. reflexivity.
Qed.

Lemma rejected_request_costs_nothing_witness :
  let rl := fst (check 10 "a" (fst (check 0 "a" (new 2 1000)))) in
  snd (check 20 "a" rl) = Throw rateLimited
  /\ check 1005 "a" (fst (check 20 "a" rl)) = check 1005 "a" rl
  /\ snd (check 1005 "a" rl) = Ok true.
Proof.
  cbv zeta. split; [reflexivity|]. split.
  - apply (rejected_request_costs_nothing 20 1005 "a" _ rateLimited);
      [reflexivity | lia].
  - reflexivity.
Defined.

(** The accounts do not share their windows: a [check] for one account,
    passed or rejected, changes neither the window of another account nor
    what a later [check] answers it. *)
Theorem check_accounts_independent now now2 accountId other rl :
  other <> accountId ->
  windows (fst (check now accountId rl)) !! other = windows rl !! other
  /\ snd (check now2 other (fst (check now accountId rl)))
     = snd (check now2 other rl).
Proof.
  intros Hne. pose proof (check_other now accountId other rl Hne) as Hw.
  pose proof (check_fields now accountId rl) as [Hm Hwm].
  split; [exact Hw|].
  unfold check at 1 3. rewrite Hw, Hm, Hwm.
  destruct (maxRequests rl <=? _); reflexivity.
Qed.

Lemma check_accounts_independent_witness :
  let rl := fst (check 10 "a" (fst (check 0 "a" (new 2 1000)))) in
  snd (check 20 "a" rl) = Throw rateLimited
  /\ snd (check 25 "b" (fst (check 20 "a" rl))) = snd (check 25 "b" rl)
  /\ snd (check 25 "b" rl) = Ok true.
Proof.
  cbv zeta. split; [reflexivity|]. split; [|reflexivity].
  apply (check_accounts_independent 20 25 "a" "b"). discriminate.
Defined.

(** The limiter lets go: with a positive limit, a request passes once
    every timestamp in the window of its account is older than [windowMs],
    and it passes right after [reset], which leaves the windows of the other
    accounts alone. *)
Theorem rate_limit_recovers now accountId rl :
  0 < maxRequests rl ->
  (Forall (fun s => s < now - windowMs rl) (default [] (windows rl !! accountId)) ->
   snd (check now accountId rl) = Ok true)
  /\ snd (check now accountId (reset accountId rl)) = Ok true
  /\ forall other, other <> accountId ->
       windows (reset accountId rl) !! other = windows rl !! other.
Proof.
  intros Hm. split; [|split].
  - intros Hold. unfold check. rewrite evict_all by exact Hold. cbn [length].
    destruct (maxRequests rl <=? Z.of_nat 0) eqn:E; [|reflexivity].
    apply Z.leb_le in E. cbn in E. lia.
  - unfold check, reset. cbn [set_windows windows maxRequests windowMs].
    rewrite lookup_delete_eq. cbn [default evict length].
    destruct (maxRequests rl <=? Z.of_nat 0) eqn:E; [|reflexivity].
    apply Z.leb_le in E. cbn in E. lia.
  - intros other Hne. unfold reset. cbn [set_windows windows].
    apply lookup_delete_ne. congruence.
Qed.

Lemma rate_limit_recovers_witness :
  let rl := fst (check 10 "a" (fst (check 0 "a" (new 2 1000)))) in
  snd (check 20 "a" rl) = Throw rateLimited
  /\ snd (check 1011 "a" rl) = Ok true
  /\ snd (check 20 "a" (reset "a" rl)) = Ok true.
Proof.
  cbv zeta. split; [reflexivity|].
  destruct (rate_limit_recovers 1011 "a"
              (fst (check 10 "a" (fst (check 0 "a" (new 2 1000))))))
    as (Hold & _ & _); [vm_compute; reflexivity|].
  destruct (rate_limit_recovers 20 "a"
              (fst (check 10 "a" (fst (check 0 "a" (new 2 1000))))))
    as (_ & Hreset & _); [vm_compute; reflexivity|].
  split; [|exact Hreset].
  apply Hold. vm_compute.
  repeat first [apply List.Forall_nil | apply List.Forall_cons; [reflexivity|]].
Defined.

Lemma admitted_burst (a : string) (t m w : Z) :
  0 <= w ->
  forall n k rl,
    maxRequests rl = m -> windowMs rl = w ->
    default [] (windows rl !! a) = replicate k t ->
    admitted (replicate n (a, t)) rl
    = replicate (Nat.min n (Z.to_nat m - k)) (a, t).
Proof.
  intros Hw n. induction n as [|n IH]; intros k rl Hm Hwm Hwin; [reflexivity|].
  cbn [replicate admitted]. unfold check. rewrite Hwm, Hm, Hwin.
  assert (Hev : evict (t - w) (replicate k t) = replicate k t).
  { destruct k; [reflexivity|]. cbn [replicate evict].
    assert (E : (t <? t - w) = false) by (apply Z.ltb_ge; lia).
    rewrite E. reflexivity. }
  rewrite Hev, length_replicate.
  destruct (m <=? Z.of_nat k) eqn:E.
  - apply Z.leb_le in E.
    rewrite (IH k); [| exact Hm | exact Hwm
                     | cbn [set_windows windows]; rewrite lookup_insert_eq; reflexivity].
    replace (Z.to_nat m - k)%nat with 0%nat by lia.
    rewrite !Nat.min_0_r. reflexivity.
  - apply Z.leb_gt in E.
    rewrite (IH (S k)); [| exact Hm | exact Hwm |].
    + replace (Nat.min (S n) (Z.to_nat m - k)) with (S (Nat.min n (Z.to_nat m - S k)))
        by lia.
      reflexivity.
    + cbn [set_windows windows]. rewrite lookup_insert_eq.
      cbn [default from_option]. unfold id.
      clear. induction k as [|k IHk]; [reflexivity|].
      cbn [replicate app]. rewrite IHk. reflexivity.
Qed.

(** The limit is reached: of [n] requests that an account makes at one
    instant to a fresh limiter, exactly the first [maxRequests] pass. *)
Theorem rate_limit_burst (accountId : string) (t maxRequests windowMs : Z) (n : nat) :
  0 <= windowMs ->
  admitted (replicate n (accountId, t)) (new maxRequests windowMs)
  = replicate (Nat.min n (Z.to_nat maxRequests)) (accountId, t).
Proof.
  intros Hw.
  rewrite (admitted_burst accountId t maxRequests windowMs Hw n 0
             (new maxRequests windowMs)); [|reflexivity..].
  rewrite Nat.sub_0_r. reflexivity.
Qed.

(** The limiter of the server lets 100 of 150 simultaneous requests
    pass. *)
Lemma rate_limit_burst_witness :
  length (admitted (replicate 150 ("a", 5000)) rateLimiter) = 100%nat.
Proof.
  unfold rateLimiter.
  rewrite (rate_limit_burst "a" 5000 RATE_LIMIT_MAX RATE_LIMIT_WINDOW_MS 150)
    by (unfold RATE_LIMIT_WINDOW_MS; lia).
  rewrite length_replicate. reflexivity.
Defined.

End RateLimitFacts.

(** ** No overdraft *)

Section SolvencyFacts.
Import JsNumber Money Types Errors Db BalanceService TradeService QuoteService.
Import Sor PriceService System Scenario.
















End SolvencyFacts.
